(** * Session state and request lifecycle of script.js

    A shallow embedding of the chat front end's core (script.js): the
    session repository ([allSessions], [currentSessionId]), its mirror in
    [localStorage], the chat submission handler with its two suspension
    points, the upload callbacks, export and clear.

    Conventions of the embedding.
    - A JavaScript string is a [string]; one character stands for one code
      unit below U+0100.
    - [allSessions] is a [gmap string Session], the own properties of the
      object; [Object.keys(o).length] is [size].  A read [allSessions[k]]
      looks at the own properties first and then at what every object
      inherits from [Object.prototype] ([inherited]).  The order of the keys
      only matters to [renderSessionList], which rewrites the sidebar list
      and nothing else; the sidebar is not part of the state.
    - Every function of the script is a computation in [Js], a state monad
      over [World] whose result is a normal completion or a thrown error.
      The world written before a [throw] is kept, as in JavaScript.
    - An [async] function is cut at its [await]s: one definition per stretch
      of code that runs without interruption, the values of its locals being
      passed along as a [Pending] record.
    - [Date.now()] reads an oracle of the world; each read consumes one
      reading.  [localStorage.setItem] is assumed not to exceed its quota. *)

From Stdlib Require Import Ascii String ZArith.
From stdpp Require Import base option list strings gmap pretty.

(** ** Values *)

(** The values that can flow into a message text, an error message or a
    notification: what a field of a parsed JSON object holds (numbers, arrays
    and nested objects left out), and [undefined] for a missing field. *)
Inductive jsval :=
  | JUndefined
  | JNull
  | JBool (b : bool)
  | JStr (s : string).

#[global] Instance jsval_eq_dec : EqDecision jsval.
Proof. solve_decision. Defined.

(** ToBoolean *)
Definition truthy (v : jsval) : bool :=
  match v with
  | JUndefined | JNull => false
  | JBool b => b
  | JStr EmptyString => false
  | JStr _ => true
  end.

(** ToString, as applied by template literals and by [new Error(v)] *)
Definition ToString (v : jsval) : string :=
  match v with
  | JUndefined => "undefined"
  | JNull => "null"
  | JBool true => "true"
  | JBool false => "false"
  | JStr s => s
  end.

(** [a || b] *)
Definition js_or (a b : jsval) : jsval := if truthy a then a else b.

(** The property key a nullable id denotes in [allSessions[id]], and the
    text [localStorage.setItem(k, id)] stores. *)
Definition propkey (id : option string) : string :=
  match id with
  | Some s => s
  | None => "null"
  end.

(** [!id] on a value that is null or a string *)
Definition falsy_id (id : option string) : bool :=
  match id with
  | None | Some EmptyString => true
  | Some _ => false
  end.

(** *** String.prototype.trim *)

Definition is_white_space (c : ascii) : bool :=
  let n := nat_of_ascii c in
  ((9 <=? n) && (n <=? 13) || (n =? 32) || (n =? 160))%nat.

Fixpoint trimStart (s : string) : string :=
  match s with
  | EmptyString => EmptyString
  | String c r => if is_white_space c then trimStart r else s
  end.

Fixpoint trimEnd (s : string) : string :=
  match s with
  | EmptyString => EmptyString
  | String c r =>
      match trimEnd r with
      | EmptyString => if is_white_space c then EmptyString else String c EmptyString
      | r' => String c r'
      end
  end.

Definition trim (s : string) : string := trimEnd (trimStart s).

(** [s.replace(/\s+/g, '-')]: every maximal run of white space becomes one
    dash. *)
Fixpoint dash_spaces (in_run : bool) (s : string) : string :=
  match s with
  | EmptyString => EmptyString
  | String c r =>
      if is_white_space c
      then (if in_run then dash_spaces true r else String "-"%char (dash_spaces true r))
      else String c (dash_spaces false r)
  end.

(** ** Errors *)

Inductive ErrorName := Error | TypeError | SyntaxError.

Record JsError := Thrown { err_name : ErrorName; err_message : string }.

(** Messages of the errors the engine itself raises, in V8's wording; only
    the worked examples quote them. *)
Definition cannot_read (of_what prop : string) : JsError :=
  Thrown TypeError
    ("Cannot read properties of " +:+ of_what +:+ " (reading '" +:+ prop +:+ "')").

Definition not_a_function (what : string) : JsError :=
  Thrown TypeError (what +:+ " is not a function").

(** ** Data model *)

Inductive Sender := user | bot.

#[global] Instance Sender_eq_dec : EqDecision Sender.
Proof. solve_decision. Defined.

Record Message := { sender : Sender; text : jsval }.

Record Session := { title : string; messages : list Message }.

#[global] Instance Message_eq_dec : EqDecision Message.
Proof. solve_decision. Defined.

#[global] Instance Session_eq_dec : EqDecision Session.
Proof. solve_decision. Defined.

Definition greeting : Message :=
  {| sender := bot; text := JStr "Hello! Ask me anything about the knowledge base." |}.

(** How a text handed to [JSON.parse] (or a body read by [response.json()])
    parses.  [JsonObject] also stands for the non-null primitives, on which
    every property read below yields [undefined]. *)
Inductive Json :=
  | JsonMalformed (syntax_message : string)
  | JsonNull
  | JsonObject (fields : gmap string jsval).

Definition get_field (fields : gmap string jsval) (k : string) : jsval :=
  default JUndefined (fields !! k).

(** The [chatSessions] slot of [localStorage], by what
    [JSON.parse(localStorage.getItem('chatSessions'))] does on it.  These
    four shapes are the stores the embedding covers: the script writes the
    last one only, and an empty or tampered store gives the others.  Texts
    of other truthy JSON values (a number, an array, an object whose values
    are not session records) are outside it, and no statement below speaks
    of them. *)
Inductive Slot :=
  | Absent                                  (* getItem gives null, which parses to null *)
  | Malformed (raw syntax_message : string) (* JSON.parse raises SyntaxError *)
  | FalsyJson                               (* text of null, false, 0 or the empty string *)
  | SessionsJson (m : gmap string Session). (* text written by saveSessions *)

(** *** What [allSessions] inherits

    [allSessions] is an ordinary object ([{}], or the result of
    [JSON.parse]), so [allSessions[k]] for a [k] that is not an own key is
    looked up on [Object.prototype].  The script reads [.messages] of what it
    finds there, and [clearChat] assigns it; no other property of a built-in
    object is written, and none of them has a [title]. *)

(** The methods of [Object.prototype], as every browser has them. *)
Definition Object_prototype_methods : list string :=
  [ "constructor"; "hasOwnProperty"; "isPrototypeOf"; "propertyIsEnumerable";
    "toLocaleString"; "toString"; "valueOf";
    "__defineGetter__"; "__defineSetter__"; "__lookupGetter__"; "__lookupSetter__" ].

(** The objects [allSessions[k]] can yield for a [k] that is not an own key. *)
Inductive Builtin :=
  | Method (name : string)  (* the function [Object.prototype[name]] *)
  | ObjectPrototype         (* [Object.prototype], by the getter of [__proto__] *)
  | PrototypeMessages.      (* the array [Object.prototype.messages], once assigned *)

(** The [messages] properties the script has created on these objects; a
    page starts without any. *)
Record Builtins := {
  method_messages : gmap string (list Message);  (* own [messages] of each method *)
  prototype_messages : option (list Message);    (* [Object.prototype.messages] *)
  array_messages : option (list Message)         (* own [messages] of that array *)
}.

Definition pristine : Builtins :=
  {| method_messages := ∅; prototype_messages := None; array_messages := None |}.

(** [allSessions[k]] when [k] is not an own key; [None] is [undefined]. *)
Definition inherited (B : Builtins) (k : string) : option Builtin :=
  if bool_decide (k ∈ Object_prototype_methods) then Some (Method k)
  else if bool_decide (k = "__proto__") then Some ObjectPrototype
  else if bool_decide (k = "messages") then
    match prototype_messages B with
    | Some _ => Some PrototypeMessages
    | None => None
    end
  else None.

(** [b.messages]: the own property, else the one of [Object.prototype],
    which functions and arrays inherit; [None] is [undefined]. *)
Definition builtin_messages (B : Builtins) (b : Builtin) : option (list Message) :=
  match b with
  | Method name =>
      match method_messages B !! name with
      | Some msgs => Some msgs
      | None => prototype_messages B
      end
  | ObjectPrototype => prototype_messages B
  | PrototypeMessages =>
      match array_messages B with
      | Some msgs => Some msgs
      | None => prototype_messages B
      end
  end.

Definition push_prototype_messages (m : Message) (B : Builtins) : Builtins :=
  {| method_messages := method_messages B;
     prototype_messages := (fun msgs => msgs ++ [m]) <$> prototype_messages B;
     array_messages := array_messages B |}.

(** [b.messages.push(m)], [b.messages] being an array: the array grows where
    it lives, on [b] or on [Object.prototype]. *)
Definition builtin_push (m : Message) (b : Builtin) (B : Builtins) : Builtins :=
  match b with
  | Method name =>
      match method_messages B !! name with
      | Some msgs =>
          {| method_messages := <[ name := msgs ++ [m] ]> (method_messages B);
             prototype_messages := prototype_messages B;
             array_messages := array_messages B |}
      | None => push_prototype_messages m B
      end
  | ObjectPrototype => push_prototype_messages m B
  | PrototypeMessages =>
      match array_messages B with
      | Some msgs =>
          {| method_messages := method_messages B;
             prototype_messages := prototype_messages B;
             array_messages := Some (msgs ++ [m]) |}
      | None => push_prototype_messages m B
      end
  end.

(** [b.messages = msgs], [msgs] a new array: an own property of [b] is
    created or overwritten.  On [Object.prototype] the new array replaces
    the former one, and has no [messages] of its own. *)
Definition builtin_assign (msgs : list Message) (b : Builtin) (B : Builtins) : Builtins :=
  match b with
  | Method name =>
      {| method_messages := <[ name := msgs ]> (method_messages B);
         prototype_messages := prototype_messages B;
         array_messages := array_messages B |}
  | ObjectPrototype =>
      {| method_messages := method_messages B;
         prototype_messages := Some msgs;
         array_messages := None |}
  | PrototypeMessages =>
      {| method_messages := method_messages B;
         prototype_messages := prototype_messages B;
         array_messages := Some msgs |}
  end.

(** A child of [#chat-history]. *)
Inductive Bubble := TypingIndicator | Formatted (source : string).

Record MessageDiv := { div_id : string; div_sender : Sender; div_bubble : Bubble }.

(** Width of the upload progress bar: ['0%'] or [`${loaded / total * 100}%`]. *)
Inductive Width := WidthZero | WidthRatio (loaded total : Z).

Record File := { file_name : string }.

Record World := {
  allSessions : gmap string Session;
  currentSessionId : option string;
  ls_chatSessions : Slot;                 (* localStorage['chatSessions'] *)
  ls_currentSessionId : option string;    (* localStorage['currentSessionId'] *)
  chatHistory : list MessageDiv;          (* children of #chat-history *)
  userInput : string;                     (* userInput.value *)
  notifications : list (jsval * bool);    (* calls of showNotification, oldest first *)
  requests : list string;                 (* queries POSTed to /chat, oldest first *)
  uploads : list File;                    (* files POSTed to /upload *)
  downloads : list (string * string);     (* (file name, text) of each export *)
  uploadProgressBar : Width;
  builtins : Builtins;                    (* [messages] set on built-in objects *)
  date_now : nat -> Z;                    (* readings of the clock *)
  date_reads : nat                        (* how many were consumed *)
}.

(** *** Field updates *)

Definition set_allSessions (m : gmap string Session) (w : World) : World :=
  {| allSessions := m; currentSessionId := currentSessionId w;
     ls_chatSessions := ls_chatSessions w; ls_currentSessionId := ls_currentSessionId w;
     chatHistory := chatHistory w; userInput := userInput w;
     notifications := notifications w; requests := requests w; uploads := uploads w;
     downloads := downloads w; uploadProgressBar := uploadProgressBar w;
     builtins := builtins w; date_now := date_now w; date_reads := date_reads w |}.

Definition set_currentSessionId (id : option string) (w : World) : World :=
  {| allSessions := allSessions w; currentSessionId := id;
     ls_chatSessions := ls_chatSessions w; ls_currentSessionId := ls_currentSessionId w;
     chatHistory := chatHistory w; userInput := userInput w;
     notifications := notifications w; requests := requests w; uploads := uploads w;
     downloads := downloads w; uploadProgressBar := uploadProgressBar w;
     builtins := builtins w; date_now := date_now w; date_reads := date_reads w |}.

Definition set_ls_chatSessions (s : Slot) (w : World) : World :=
  {| allSessions := allSessions w; currentSessionId := currentSessionId w;
     ls_chatSessions := s; ls_currentSessionId := ls_currentSessionId w;
     chatHistory := chatHistory w; userInput := userInput w;
     notifications := notifications w; requests := requests w; uploads := uploads w;
     downloads := downloads w; uploadProgressBar := uploadProgressBar w;
     builtins := builtins w; date_now := date_now w; date_reads := date_reads w |}.

Definition set_ls_currentSessionId (s : option string) (w : World) : World :=
  {| allSessions := allSessions w; currentSessionId := currentSessionId w;
     ls_chatSessions := ls_chatSessions w; ls_currentSessionId := s;
     chatHistory := chatHistory w; userInput := userInput w;
     notifications := notifications w; requests := requests w; uploads := uploads w;
     downloads := downloads w; uploadProgressBar := uploadProgressBar w;
     builtins := builtins w; date_now := date_now w; date_reads := date_reads w |}.

Definition set_chatHistory (h : list MessageDiv) (w : World) : World :=
  {| allSessions := allSessions w; currentSessionId := currentSessionId w;
     ls_chatSessions := ls_chatSessions w; ls_currentSessionId := ls_currentSessionId w;
     chatHistory := h; userInput := userInput w;
     notifications := notifications w; requests := requests w; uploads := uploads w;
     downloads := downloads w; uploadProgressBar := uploadProgressBar w;
     builtins := builtins w; date_now := date_now w; date_reads := date_reads w |}.

Definition set_userInput (v : string) (w : World) : World :=
  {| allSessions := allSessions w; currentSessionId := currentSessionId w;
     ls_chatSessions := ls_chatSessions w; ls_currentSessionId := ls_currentSessionId w;
     chatHistory := chatHistory w; userInput := v;
     notifications := notifications w; requests := requests w; uploads := uploads w;
     downloads := downloads w; uploadProgressBar := uploadProgressBar w;
     builtins := builtins w; date_now := date_now w; date_reads := date_reads w |}.

Definition set_notifications (n : list (jsval * bool)) (w : World) : World :=
  {| allSessions := allSessions w; currentSessionId := currentSessionId w;
     ls_chatSessions := ls_chatSessions w; ls_currentSessionId := ls_currentSessionId w;
     chatHistory := chatHistory w; userInput := userInput w;
     notifications := n; requests := requests w; uploads := uploads w;
     downloads := downloads w; uploadProgressBar := uploadProgressBar w;
     builtins := builtins w; date_now := date_now w; date_reads := date_reads w |}.

Definition set_requests (r : list string) (w : World) : World :=
  {| allSessions := allSessions w; currentSessionId := currentSessionId w;
     ls_chatSessions := ls_chatSessions w; ls_currentSessionId := ls_currentSessionId w;
     chatHistory := chatHistory w; userInput := userInput w;
     notifications := notifications w; requests := r; uploads := uploads w;
     downloads := downloads w; uploadProgressBar := uploadProgressBar w;
     builtins := builtins w; date_now := date_now w; date_reads := date_reads w |}.

Definition set_uploads (u : list File) (w : World) : World :=
  {| allSessions := allSessions w; currentSessionId := currentSessionId w;
     ls_chatSessions := ls_chatSessions w; ls_currentSessionId := ls_currentSessionId w;
     chatHistory := chatHistory w; userInput := userInput w;
     notifications := notifications w; requests := requests w; uploads := u;
     downloads := downloads w; uploadProgressBar := uploadProgressBar w;
     builtins := builtins w; date_now := date_now w; date_reads := date_reads w |}.

Definition set_downloads (d : list (string * string)) (w : World) : World :=
  {| allSessions := allSessions w; currentSessionId := currentSessionId w;
     ls_chatSessions := ls_chatSessions w; ls_currentSessionId := ls_currentSessionId w;
     chatHistory := chatHistory w; userInput := userInput w;
     notifications := notifications w; requests := requests w; uploads := uploads w;
     downloads := d; uploadProgressBar := uploadProgressBar w;
     builtins := builtins w; date_now := date_now w; date_reads := date_reads w |}.

Definition set_uploadProgressBar (p : Width) (w : World) : World :=
  {| allSessions := allSessions w; currentSessionId := currentSessionId w;
     ls_chatSessions := ls_chatSessions w; ls_currentSessionId := ls_currentSessionId w;
     chatHistory := chatHistory w; userInput := userInput w;
     notifications := notifications w; requests := requests w; uploads := uploads w;
     downloads := downloads w; uploadProgressBar := p;
     builtins := builtins w; date_now := date_now w; date_reads := date_reads w |}.

Definition set_builtins (B : Builtins) (w : World) : World :=
  {| allSessions := allSessions w; currentSessionId := currentSessionId w;
     ls_chatSessions := ls_chatSessions w; ls_currentSessionId := ls_currentSessionId w;
     chatHistory := chatHistory w; userInput := userInput w;
     notifications := notifications w; requests := requests w; uploads := uploads w;
     downloads := downloads w; uploadProgressBar := uploadProgressBar w;
     builtins := B; date_now := date_now w; date_reads := date_reads w |}.

Definition set_date_reads (n : nat) (w : World) : World :=
  {| allSessions := allSessions w; currentSessionId := currentSessionId w;
     ls_chatSessions := ls_chatSessions w; ls_currentSessionId := ls_currentSessionId w;
     chatHistory := chatHistory w; userInput := userInput w;
     notifications := notifications w; requests := requests w; uploads := uploads w;
     downloads := downloads w; uploadProgressBar := uploadProgressBar w;
     builtins := builtins w; date_now := date_now w; date_reads := n |}.

(** ** The monad of script code *)

Inductive Completion (A : Type) :=
  | Normal (a : A)
  | Throw (e : JsError).
Arguments Normal {A} a.
Arguments Throw {A} e.

Definition Js (A : Type) : Type := World -> Completion A * World.

#[global] Instance Js_ret : MRet Js := fun A a w => (Normal a, w).

#[global] Instance Js_bind : MBind Js := fun A B f m w =>
  match m w with
  | (Normal a, w') => f a w'
  | (Throw e, w') => (Throw e, w')
  end.

Definition throw {A} (e : JsError) : Js A := fun w => (Throw e, w).

(** [try { body } catch (error) { handler }] *)
Definition try_catch {A} (body : Js A) (handler : JsError -> Js A) : Js A :=
  fun w =>
    match body w with
    | (Normal a, w') => (Normal a, w')
    | (Throw e, w') => handler e w'
    end.

Definition gets {A} (f : World -> A) : Js A := fun w => (Normal (f w), w).

Definition modify (f : World -> World) : Js unit := fun w => (Normal tt, f w).

(** [xs.forEach(f)] *)
Fixpoint forEach {A} (f : A -> Js unit) (xs : list A) : Js unit :=
  match xs with
  | [] => mret tt
  | x :: xs' => f x ;; forEach f xs'
  end.

Definition throws {A} (r : Completion A * World) : Prop :=
  match fst r with
  | Throw _ => True
  | Normal _ => False
  end.

Definition returns {A} (r : Completion A * World) : Prop :=
  match fst r with
  | Normal _ => True
  | Throw _ => False
  end.

(** ** Core UI functions *)

(** [Date.now()] *)
Definition Date_now : Js Z := fun w =>
  (Normal (date_now w (date_reads w)), set_date_reads (S (date_reads w)) w).

(** [addMessageToUI(sender, text)], lines 43-76.  A text that is not a string
    fails at [text.replace] (line 56), before the new node is attached. *)
Definition addMessageToUI (sndr : Sender) (txt : jsval) : Js string :=
  now ← Date_now;
  let messageId := "msg-" +:+ pretty now in
  bubble ← (if decide (txt = JStr "typing...") then mret TypingIndicator
            else match txt with
                 | JStr s => mret (Formatted s)
                 | JUndefined => throw (cannot_read "undefined" "replace")
                 | JNull => throw (cannot_read "null" "replace")
                 | JBool _ => throw (not_a_function "text.replace")
                 end);
  modify (fun w => set_chatHistory
            (chatHistory w ++ [{| div_id := messageId; div_sender := sndr; div_bubble := bubble |}]) w) ;;
  mret messageId.

(** [showNotification(message, isError = false)], lines 78-82 *)
Definition showNotification (message : jsval) (isError : bool) : Js unit :=
  modify (fun w => set_notifications (notifications w ++ [(message, isError)]) w).

(** [document.getElementById(id)?.remove()]: the first node with that id, in
    document order, is detached. *)
Fixpoint remove_first_id (id : string) (h : list MessageDiv) : list MessageDiv :=
  match h with
  | [] => []
  | d :: h' => if decide (div_id d = id) then h' else d :: remove_first_id id h'
  end.

Definition removeById (id : string) : Js unit :=
  modify (fun w => set_chatHistory (remove_first_id id (chatHistory w)) w).

(** ** Session management *)

(** [saveSessions()], lines 85-88 *)
Definition saveSessions : Js unit :=
  modify (fun w => set_ls_chatSessions (SessionsJson (allSessions w)) w) ;;
  modify (fun w => set_ls_currentSessionId (Some (propkey (currentSessionId w))) w).

(** [renderSessionList()], lines 98-110: rewrites the sidebar list, which is
    not part of [World], and nothing else.  It reads own keys only
    ([Object.keys]) and the [title] every [Session] has, so it raises
    nothing. *)
Definition renderSessionList : Js unit := mret tt.

(** [loadChatHistory()], lines 132-138.  An inherited object is truthy, so
    the branch of line 136 is taken for it as well. *)
Definition loadChatHistory : Js unit :=
  modify (set_chatHistory []) ;;
  session ← gets (fun w => allSessions w !! propkey (currentSessionId w));
  match session with
  | Some s => forEach (fun msg => addMessageToUI (sender msg) (text msg) ;; mret tt) (messages s)
  | None =>
      cur ← gets currentSessionId;
      B ← gets builtins;
      match inherited B (propkey cur) with
      | Some b =>
          match builtin_messages B b with
          | Some msgs =>
              forEach (fun msg => addMessageToUI (sender msg) (text msg) ;; mret tt) msgs
          | None => throw (cannot_read "undefined" "forEach")
          end
      | None => mret tt
      end
  end.

(** [createNewSession()], lines 112-122.  The title is computed before the
    new key is stored. *)
Definition createNewSession : Js unit :=
  now ← Date_now;
  let newSessionId := "session-" +:+ pretty now in
  modify (set_currentSessionId (Some newSessionId)) ;;
  modify (fun w => set_allSessions
            (<[ newSessionId :=
                  {| title := "Chat " +:+ pretty (size (allSessions w) + 1)%nat;
                     messages := [greeting] |} ]> (allSessions w)) w) ;;
  renderSessionList ;;
  loadChatHistory ;;
  saveSessions.

(** [JSON.parse(localStorage.getItem('chatSessions')) || {}], line 91 *)
Definition parse_chatSessions (s : Slot) : Js (gmap string Session) :=
  match s with
  | Absent => mret ∅
  | Malformed _ msg => throw (Thrown SyntaxError msg)
  | FalsyJson => mret ∅
  | SessionsJson m => mret m
  end.

(** Lines 91-92 of [loadSessions()]: the two reads of the store. *)
Definition loadSessions_read : Js unit :=
  slot ← gets ls_chatSessions;
  parsed ← parse_chatSessions slot;
  modify (set_allSessions parsed) ;;
  stored ← gets ls_currentSessionId;
  modify (set_currentSessionId stored).

(** [loadSessions()], lines 90-96.  [!allSessions[currentSessionId]] holds
    when the id is neither an own key nor the name of an inherited
    property. *)
Definition loadSessions : Js unit :=
  loadSessions_read ;;
  cur ← gets currentSessionId;
  sessions ← gets allSessions;
  B ← gets builtins;
  if falsy_id cur ||
     (bool_decide (sessions !! propkey cur = None) &&
      bool_decide (inherited B (propkey cur) = None))
  then createNewSession
  else mret tt.

(** [switchSession(sessionId)], lines 124-130 *)
Definition switchSession (sessionId : string) : Js unit :=
  cur ← gets currentSessionId;
  if decide (Some sessionId = cur) then mret tt
  else
    modify (set_currentSessionId (Some sessionId)) ;;
    loadChatHistory ;;
    renderSessionList ;;
    modify (set_ls_currentSessionId (Some sessionId)).

(** [init()], lines 308-318, without the theme and the landing title. *)
Definition init : Js unit :=
  loadSessions ;;
  renderSessionList ;;
  loadChatHistory.

(** ** Chat submission *)

(** [allSessions[currentSessionId].messages.push(m)], lines 146, 169, 176 *)
Definition push_message (m : Message) : Js unit :=
  cur ← gets currentSessionId;
  sessions ← gets allSessions;
  match sessions !! propkey cur with
  | Some s =>
      modify (set_allSessions
                (<[ propkey cur := {| title := title s; messages := messages s ++ [m] |} ]> sessions))
  | None =>
      B ← gets builtins;
      match inherited B (propkey cur) with
      | Some b =>
          match builtin_messages B b with
          | Some _ => modify (set_builtins (builtin_push m b B))
          | None => throw (cannot_read "undefined" "push")
          end
      | None => throw (cannot_read "undefined" "messages")
      end
  end.

(** The locals of [handleChatSubmit] that live across its [await]s. *)
Record Pending := { typingId : string; userText : string }.

Record Response := { status : Z; body : Json }.

(** [response.ok] *)
Definition ok (r : Response) : bool := (200 <=? status r)%Z && (status r <=? 299)%Z.

(** Outcome of [fetch]: a rejection (network error) or a response. *)
Inductive FetchResult :=
  | Rejected (e : JsError)
  | Resolved (r : Response).

(** Lines 142-159: from the call to the first [await].  [None] is the early
    return on an empty text; [Some p] means the request is in flight. *)
Definition handleChatSubmit_start : Js (option Pending) :=
  value ← gets userInput;
  let userText := trim value in
  match userText with
  | EmptyString => mret None
  | _ =>
      push_message {| sender := user; text := JStr userText |} ;;
      addMessageToUI user (JStr userText) ;;
      saveSessions ;;
      modify (set_userInput EmptyString) ;;
      typingId ← addMessageToUI bot (JStr "typing...");
      modify (fun w => set_requests (requests w ++ [userText]) w) ;;
      mret (Some {| typingId := typingId; userText := userText |})
  end.

(** The [catch] block, lines 172-179 *)
Definition handleChatSubmit_catch (p : Pending) (error : JsError) : Js unit :=
  removeById (typingId p) ;;
  let errorMsg := "Error: " +:+ err_message error in
  push_message {| sender := bot; text := JStr errorMsg |} ;;
  addMessageToUI bot (JStr errorMsg) ;;
  saveSessions.

(** [await response.json()] *)
Definition response_json (r : Response) : Js (option (gmap string jsval)) :=
  match body r with
  | JsonMalformed msg => throw (Thrown SyntaxError msg)
  | JsonNull => mret None
  | JsonObject fields => mret (Some fields)
  end.

(** [o.prop] on a parsed body *)
Definition read_prop (o : option (gmap string jsval)) (prop : string) : Js jsval :=
  match o with
  | None => throw (cannot_read "null" prop)
  | Some fields => mret (get_field fields prop)
  end.

(** Line 161, when [fetch] resolves: the indicator is removed, then the
    function waits for the body.  When [fetch] rejects, control enters the
    [catch] block at once. *)
Definition handleChatSubmit_fetched (p : Pending) (f : FetchResult) : Js (option Response) :=
  match f with
  | Rejected e => handleChatSubmit_catch p e ;; mret None
  | Resolved r => removeById (typingId p) ;; mret (Some r)
  end.

(** Lines 163-171 once the body has been read, inside the [try]. *)
Definition handleChatSubmit_body (p : Pending) (r : Response) : Js unit :=
  try_catch
    (if ok r then
       data ← response_json r;
       answer ← read_prop data "answer";
       push_message {| sender := bot; text := answer |} ;;
       addMessageToUI bot answer ;;
       saveSessions
     else
       errorData ← response_json r;
       detail ← read_prop errorData "detail";
       throw (Thrown Error (ToString (js_or detail (JStr "Failed to get response.")))))
    (handleChatSubmit_catch p).

(** The whole continuation, when nothing else runs between the two
    [await]s. *)
Definition handleChatSubmit_settle (p : Pending) (f : FetchResult) : Js unit :=
  r ← handleChatSubmit_fetched p f;
  match r with
  | Some r => handleChatSubmit_body p r
  | None => mret tt
  end.

(** ** Upload *)

(** [handleFileUpload(file)], lines 182-188 and 213: the request is sent;
    its three callbacks follow. *)
Definition handleFileUpload (file : option File) : Js unit :=
  match file with
  | None => mret tt
  | Some f => modify (fun w => set_uploads (uploads w ++ [f]) w)
  end.

(** [xhr.upload.onprogress], lines 190-195 *)
Definition xhr_onprogress (lengthComputable : bool) (loaded total : Z) : Js unit :=
  if lengthComputable then modify (set_uploadProgressBar (WidthRatio loaded total))
  else mret tt.

(** [JSON.parse(xhr.responseText)] *)
Definition JSON_parse (j : Json) : Js (option (gmap string jsval)) :=
  match j with
  | JsonMalformed msg => throw (Thrown SyntaxError msg)
  | JsonNull => mret None
  | JsonObject fields => mret (Some fields)
  end.

(** [xhr.onload], lines 197-206 *)
Definition xhr_onload (xhr_status : Z) (responseText : Json) : Js unit :=
  modify (set_uploadProgressBar WidthZero) ;;
  if decide (xhr_status = 200%Z) then
    response ← JSON_parse responseText;
    message ← read_prop response "message";
    showNotification message false
  else
    error ← JSON_parse responseText;
    detail ← read_prop error "detail";
    showNotification detail true.

(** [xhr.onerror], lines 208-211 *)
Definition xhr_onerror : Js unit :=
  showNotification (JStr "Upload failed. Connection error.") true ;;
  modify (set_uploadProgressBar WidthZero).

(** How an upload ends: [onload] with a status and a body, or [onerror]. *)
Inductive UploadEnd :=
  | Loaded (xhr_status : Z) (responseText : Json)
  | ConnectionError.

Definition xhr_complete (e : UploadEnd) : Js unit :=
  match e with
  | Loaded st txt => xhr_onload st txt
  | ConnectionError => xhr_onerror
  end.

(** ** Export and clear *)

Definition nl : string := String "010"%char EmptyString.

(** The callback of line 223-226, as a step on [chatText]. *)
Definition export_step (chatText : string) (msg : Message) : string :=
  let label := match sender msg with user => "You" | bot => "AI Assistant" end in
  chatText +:+ ("[" +:+ label +:+ "]: " +:+ ToString (text msg) +:+ nl).

(** [exportChat()], lines 216-237; [stamp] is [new Date().toLocaleString()].
    An inherited object has no [title]: when it bears messages, lines
    222-231 build the text and the link, and [session.title.replace] fails at
    line 232, before the link is clicked. *)
Definition exportChat (stamp : string) : Js unit :=
  session ← gets (fun w => allSessions w !! propkey (currentSessionId w));
  match session with
  | None =>
      cur ← gets currentSessionId;
      B ← gets builtins;
      match inherited B (propkey cur) with
      | Some b =>
          match builtin_messages B b with
          | Some [] => showNotification (JStr "Nothing to export.") true
          | Some (_ :: _) => throw (cannot_read "undefined" "replace")
          | None => throw (cannot_read "undefined" "length")
          end
      | None => showNotification (JStr "Nothing to export.") true
      end
  | Some s =>
      if decide (length (messages s) = 0%nat)
      then showNotification (JStr "Nothing to export.") true
      else
        let header := "Chat Session: " +:+ title s +:+ nl +:+
                      "Exported on: " +:+ stamp +:+ nl +:+ nl in
        let chatText := fold_left export_step (messages s) header in
        let name := "chat-session-" +:+ dash_spaces false (title s) +:+ ".txt" in
        modify (fun w => set_downloads (downloads w ++ [(name, chatText)]) w)
  end.

(** [clearChat()], lines 240-249.  The guard of line 241 lets an inherited
    object through, and line 242 then assigns its [messages]. *)
Definition clearChat : Js unit :=
  cur ← gets currentSessionId;
  sessions ← gets allSessions;
  match sessions !! propkey cur with
  | None =>
      B ← gets builtins;
      match inherited B (propkey cur) with
      | None => mret tt
      | Some b =>
          modify (set_builtins (builtin_assign [greeting] b B)) ;;
          modify (set_chatHistory []) ;;
          addMessageToUI bot (JStr "Hello! Ask me anything about the knowledge base.") ;;
          saveSessions ;;
          showNotification (JStr "Chat cleared") false
      end
  | Some s =>
      modify (set_allSessions
                (<[ propkey cur := {| title := title s; messages := [greeting] |} ]> sessions)) ;;
      modify (set_chatHistory []) ;;
      addMessageToUI bot (JStr "Hello! Ask me anything about the knowledge base.") ;;
      saveSessions ;;
      showNotification (JStr "Chat cleared") false
  end.

(** ** Event listeners *)

(** What the page can do to the script between two turns of the event loop. *)
Inductive Event :=
  | NewChatClick                             (* line 277 *)
  | SessionClick (sessionId : string)        (* lines 281-285 *)
  | ClearClick                               (* line 279 *)
  | ExportClick (stamp : string)             (* line 278 *)
  | Typed (value : string)                   (* the user edits the text area *)
  | Submit                                   (* lines 258-261, up to the first await *)
  | FetchSettled (p : Pending) (f : FetchResult)  (* another submission resumes *)
  | BodyRead (p : Pending) (r : Response)
  | FileChosen (file : option File)          (* lines 264, 270 *)
  | UploadProgress (lengthComputable : bool) (loaded total : Z)
  | UploadEnded (e : UploadEnd).

Definition dispatch (ev : Event) : Js unit :=
  match ev with
  | NewChatClick => createNewSession
  | SessionClick id => switchSession id
  | ClearClick => clearChat
  | ExportClick stamp => exportChat stamp
  | Typed v => modify (set_userInput v)
  | Submit => handleChatSubmit_start ;; mret tt
  | FetchSettled p f => handleChatSubmit_fetched p f ;; mret tt
  | BodyRead p r => handleChatSubmit_body p r
  | FileChosen f => handleFileUpload f
  | UploadProgress c l t => xhr_onprogress c l t
  | UploadEnded e => xhr_complete e
  end.

(** Events run one after the other; an error thrown by a listener is
    reported by the browser and the loop goes on. *)
Fixpoint run_events (evs : list Event) (w : World) : World :=
  match evs with
  | [] => w
  | ev :: evs' => run_events evs' (snd (dispatch ev w))
  end.

(** The sidebar lists the keys of [allSessions] (lines 100-108): a click on
    it passes one of them. *)
Definition click_listed (ev : Event) (w : World) : Prop :=
  match ev with
  | SessionClick id => is_Some (allSessions w !! id)
  | _ => True
  end.

Fixpoint clicks_listed (evs : list Event) (w : World) : Prop :=
  match evs with
  | [] => True
  | ev :: evs' => click_listed ev w /\ clicks_listed evs' (snd (dispatch ev w))
  end.

(** ** Properties of states *)

(** The active id is a string and a key of [allSessions]. *)
Definition active_valid (w : World) : Prop :=
  exists id, currentSessionId w = Some id /\ is_Some (allSessions w !! id).

(** [s] with [m] pushed on its messages. *)
Definition pushed (s : Session) (m : Message) : Session :=
  {| title := title s; messages := messages s ++ [m] |}.

(** What rendering leaves alone: everything but [#chat-history] and the
    clock. *)
Definition same_repository (w w' : World) : Prop :=
  allSessions w' = allSessions w /\ currentSessionId w' = currentSessionId w /\
  ls_chatSessions w' = ls_chatSessions w /\ ls_currentSessionId w' = ls_currentSessionId w /\
  notifications w' = notifications w /\ requests w' = requests w /\
  downloads w' = downloads w /\ uploads w' = uploads w /\ userInput w' = userInput w.

(** The id [createNewSession] generates from a clock reading, and the one
    its next call will generate. *)
Definition session_id (now : Z) : string := "session-" +:+ pretty now.

Definition next_session_id (w : World) : string :=
  session_id (date_now w (date_reads w)).

(** ** Vocabulary of the statements *)

(** Every code unit of [s] is white space. *)
Fixpoint all_white_space (s : string) : bool :=
  match s with
  | EmptyString => true
  | String c r => is_white_space c && all_white_space r
  end.

(** [n] clicks on New Chat in a row. *)
Fixpoint createNewSession_times (n : nat) (w : World) : World :=
  match n with
  | O => w
  | S n' => createNewSession_times n' (snd (createNewSession w))
  end.

(** The message of the error a reply raises in the [try] block before any
    push: a rejected [fetch], a body that does not parse or parses to null,
    a status outside 2xx.  [None] for a 2xx reply with a parsed body, which
    reaches the push of line 169. *)
Definition rejection_message (f : FetchResult) : option string :=
  match f with
  | Rejected e => Some (err_message e)
  | Resolved r =>
      match body r with
      | JsonMalformed msg => Some msg
      | JsonNull =>
          Some (err_message (cannot_read "null" (if ok r then "answer" else "detail")))
      | JsonObject fields =>
          if ok r then None
          else Some (ToString (js_or (get_field fields "detail")
                                 (JStr "Failed to get response.")))
      end
  end.

(** What the page pushes on behalf of the assistant. *)
Definition bot_says (v : jsval) : Message := {| sender := bot; text := v |}.

Definition error_text (msg : string) : Message := bot_says (JStr ("Error: " +:+ msg)).

(** The error [addMessageToUI] raises on a text that is not a string (a
    string raises nothing: the last case is never looked at). *)
Definition render_error (v : jsval) : JsError :=
  match v with
  | JUndefined => cannot_read "undefined" "replace"
  | JNull => cannot_read "null" "replace"
  | JBool _ | JStr _ => not_a_function "text.replace"
  end.

Definition is_string (v : jsval) : bool :=
  match v with
  | JStr _ => true
  | _ => false
  end.

(** The messages lines 163-179 push for a response, by its status and
    body. *)
Definition reply_messages (r : Response) : list Message :=
  match body r with
  | JsonMalformed msg => [error_text msg]
  | JsonNull =>
      [error_text (err_message (cannot_read "null" (if ok r then "answer" else "detail")))]
  | JsonObject fields =>
      if ok r then
        if is_string (get_field fields "answer")
        then [bot_says (get_field fields "answer")]
        else [bot_says (get_field fields "answer");
              error_text (err_message (render_error (get_field fields "answer")))]
      else [error_text (ToString (js_or (get_field fields "detail")
                                    (JStr "Failed to get response.")))]
  end.

(** The messages the continuation pushes for an outcome of [fetch]. *)
Definition settle_messages (f : FetchResult) : list Message :=
  match f with
  | Rejected e => [error_text (err_message e)]
  | Resolved r => reply_messages r
  end.

(** The line of a message in an export, in the words of the specification:
    the label of the sender, the text, a line feed. *)
Definition export_line (m : Message) : string :=
  (if decide (sender m = user) then "[You]: " else "[AI Assistant]: ")
  +:+ ToString (text m) +:+ nl.

(** The lines of the messages, in order. *)
Fixpoint transcript (msgs : list Message) : string :=
  match msgs with
  | [] => EmptyString
  | m :: msgs' => export_line m +:+ transcript msgs'
  end.

(** An upload fails: a status other than 200, or a connection error. *)
Definition upload_failed (e : UploadEnd) : Prop :=
  match e with
  | Loaded st _ => st <> 200%Z
  | ConnectionError => True
  end.

(** ** Sample states *)

Definition clock_from (t : Z) : nat -> Z := fun n => (t + Z.of_nat n)%Z.

(** A first visit: nothing stored, nothing on the page. *)
Definition fresh_page : World :=
  {| allSessions := ∅; currentSessionId := None;
     ls_chatSessions := Absent; ls_currentSessionId := None;
     chatHistory := []; userInput := EmptyString;
     notifications := []; requests := []; uploads := []; downloads := [];
     uploadProgressBar := WidthZero; builtins := pristine;
     date_now := clock_from 1000; date_reads := 0 |}.

(** The page once [init] has run: one session, [session-1000]. *)
Definition started : World := snd (init fresh_page).

(** After a click on New Chat: [session-1000] and the active [session-1003]. *)
Definition two_chats : World := snd (createNewSession started).

(** A page on which every clock reading is the same millisecond. *)
Definition same_ms_page : World :=
  {| allSessions := ∅; currentSessionId := None;
     ls_chatSessions := Absent; ls_currentSessionId := None;
     chatHistory := []; userInput := EmptyString;
     notifications := []; requests := []; uploads := []; downloads := [];
     uploadProgressBar := WidthZero; builtins := pristine;
     date_now := fun _ => 1000%Z; date_reads := 0 |}.

(** A first visit on a store in which only the active id has been set, to
    the name of a method every object inherits. *)
Definition constructor_page : World :=
  set_ls_currentSessionId (Some "constructor") fresh_page.

(** A store whose sessions slot holds text that is not JSON. *)
Definition corrupt_page : World :=
  set_ls_chatSessions
    (Malformed "[object Object]" "Unexpected token o in JSON at position 1") fresh_page.

(** The page of [started] with blanks typed in the text area: two spaces, a
    tab and a line feed. *)
Definition blanks : string :=
  String " "%char (String " "%char (String "009"%char (String "010"%char EmptyString))).

Definition blank_input : World := set_userInput blanks started.

(** A question typed and submitted on [two_chats], whose active session is
    [session-1003]; the request is in flight. *)
Definition question : string := "What is X?".

Definition submitted : Completion (option Pending) * World :=
  handleChatSubmit_start (set_userInput question two_chats).

Definition in_flight : World := snd submitted.

Definition in_flight_pending : Pending :=
  match fst submitted with
  | Normal (Some p) => p
  | _ => {| typingId := EmptyString; userText := EmptyString |}
  end.

(** HTTP 200 with the body [{answer: 'X is Y'}]. *)
Definition reply_answer : Response :=
  {| status := 200; body := JsonObject {[ "answer" := JStr "X is Y" ]} |}.

(** The user clicks on the other session while the request is in flight;
    then the reply arrives. *)
Definition switched_away : World := run_events [SessionClick "session-1000"] in_flight.

Definition answered_after_switch : Completion unit * World :=
  handleChatSubmit_settle in_flight_pending (Resolved reply_answer) switched_away.

(** The same question on the single session of [started]. *)
Definition asked : Completion (option Pending) * World :=
  handleChatSubmit_start (set_userInput question started).

Definition asked_pending : Pending :=
  match fst asked with
  | Normal (Some p) => p
  | _ => {| typingId := EmptyString; userText := EmptyString |}
  end.

(** HTTP 200 with the body [{}]: parsable, no [answer]. *)
Definition reply_without_answer : Response :=
  {| status := 200; body := JsonObject ∅ |}.

(** HTTP 500 with the body [{detail: 'index unavailable'}]. *)
Definition reply_index_unavailable : Response :=
  {| status := 500; body := JsonObject {[ "detail" := JStr "index unavailable" ]} |}.

(** [started] with its session read back from a store that held it without
    any message. *)
Definition emptied : World :=
  set_allSessions {[ "session-1000" := {| title := "Chat 1"; messages := [] |} ]} started.

(** [started] after the question and its answer. *)
Definition answered : World :=
  snd (handleChatSubmit_settle asked_pending (Resolved reply_answer) (snd asked)).

(** The page opened again on the store that [w] left behind. *)
Definition reopened (w : World) : World :=
  set_ls_currentSessionId (ls_currentSessionId w)
    (set_ls_chatSessions (ls_chatSessions w) fresh_page).

(** HTTP 502 with the HTML page of a gateway as its body. *)
Definition bad_gateway : UploadEnd :=
  Loaded 502 (JsonMalformed "Unexpected token < in JSON at position 0").

(** HTTP 400 with the body [{detail: 'Only PDF files are accepted.'}]. *)
Definition bad_request : UploadEnd :=
  Loaded 400 (JsonObject {[ "detail" := JStr "Only PDF files are accepted." ]}).

(** ** Vocabulary of the further statements *)

(** The store holds what the memory holds. *)
Definition synced (w : World) : Prop :=
  ls_chatSessions w = SessionsJson (allSessions w) /\
  ls_currentSessionId w = Some (propkey (currentSessionId w)).

(** The error the push of lines 146, 169 and 176 raises, if any: nothing is
    found under the active id, or what is found there has no [messages]. *)
Definition push_error (w : World) : option JsError :=
  match allSessions w !! propkey (currentSessionId w) with
  | Some _ => None
  | None =>
      match inherited (builtins w) (propkey (currentSessionId w)) with
      | None => Some (cannot_read "undefined" "messages")
      | Some b =>
          match builtin_messages (builtins w) b with
          | None => Some (cannot_read "undefined" "push")
          | Some _ => None
          end
      end
  end.

(** The mapping line 91 assigns for a slot it can parse. *)
Definition stored_sessions (s : Slot) : gmap string Session :=
  match s with
  | SessionsJson m => m
  | _ => ∅
  end.

(** The bubble lines 52-57 build for a string. *)
Definition bubble_of (s : string) : Bubble :=
  if decide (s = "typing...") then TypingIndicator else Formatted s.

(** The messages [forEach] gets to render: those before the first one whose
    text is not a string. *)
Fixpoint shown (msgs : list Message) : list Message :=
  match msgs with
  | [] => []
  | m :: msgs' => if is_string (text m) then m :: shown msgs' else []
  end.

(** The first message whose text is not a string, if any. *)
Fixpoint first_unshown (msgs : list Message) : option Message :=
  match msgs with
  | [] => None
  | m :: msgs' => if is_string (text m) then first_unshown msgs' else Some m
  end.

(** The nodes [addMessageToUI] appends for messages with string texts, the
    first one at the clock reading number [r]. *)
Fixpoint rendered (now : nat -> Z) (r : nat) (msgs : list Message) : list MessageDiv :=
  match msgs with
  | [] => []
  | m :: msgs' =>
      {| div_id := "msg-" +:+ pretty (now r); div_sender := sender m;
         div_bubble := bubble_of (ToString (text m)) |} :: rendered now (S r) msgs'
  end.

(** How rendering a list of messages ends. *)
Definition render_completion (msgs : list Message) : Completion unit :=
  match first_unshown msgs with
  | None => Normal tt
  | Some m => Throw (render_error (text m))
  end.

(** The clock readings rendering consumes: one per message shown, one more
    for the message it fails on. *)
Definition render_reads (msgs : list Message) : nat :=
  match first_unshown msgs with
  | None => length (shown msgs)
  | Some _ => S (length (shown msgs))
  end.

(** ** Further sample states *)


(** A first visit on a page whose clock advances by one millisecond every
    second reading: 1000, 1000, 1001, 1001, ... *)
Definition slow_clock_page : World :=
  {| allSessions := ∅; currentSessionId := None;
     ls_chatSessions := Absent; ls_currentSessionId := None;
     chatHistory := []; userInput := EmptyString;
     notifications := []; requests := []; uploads := []; downloads := [];
     uploadProgressBar := WidthZero; builtins := pristine;
     date_now := fun n => (1000 + Z.of_nat (n / 2))%Z; date_reads := 0 |}.

(** Some character of [s] is white space. *)
Fixpoint has_white_space (s : string) : bool :=
  match s with
  | EmptyString => false
  | String c r => is_white_space c || has_white_space r
  end.

(** What the upload callbacks and the export leave alone: the sessions, the
    active id, the store, the chat history, the requests and the text
    area. *)
Definition chat_untouched (w w' : World) : Prop :=
  allSessions w' = allSessions w /\ currentSessionId w' = currentSessionId w /\
  ls_chatSessions w' = ls_chatSessions w /\ ls_currentSessionId w' = ls_currentSessionId w /\
  chatHistory w' = chatHistory w /\ requests w' = requests w /\
  userInput w' = userInput w /\ date_reads w' = date_reads w.

(** A run of events on [started]: a new chat, a question typed and
    submitted, a click on the first session, a clear. *)
Definition busy_events : list Event :=
  [NewChatClick; Typed question; Submit; SessionClick "session-1000"; ClearClick].



(** ** Parts of the page beside the repository *)

(** *** Message formatting, line 56

    [text.replace(/\*\*(.*?)\*\*/g, '<strong>$1</strong>')], the value line 57
    assigns to the bubble's [innerHTML] for a [Formatted] source. *)

Definition is_star (c : ascii) : bool := Ascii.eqb c "*".

(** The characters [.] does not match. *)
Definition is_line_terminator (c : ascii) : bool :=
  let n := nat_of_ascii c in ((n =? 10) || (n =? 13))%nat.

(** [s] starts with two asterisks; what follows them. *)
Definition two_stars (s : string) : option string :=
  match s with
  | String a (String b r) => if is_star a && is_star b then Some r else None
  | _ => None
  end.

(** After an opening pair: the shortest run of characters other than line
    terminators that a closing pair follows, and what follows that pair
    (the [(.*?)\*\*] of the pattern). *)
Fixpoint find_close (s : string) : option (string * string) :=
  match two_stars s with
  | Some r => Some (EmptyString, r)
  | None =>
      match s with
      | EmptyString => None
      | String c r =>
          if is_line_terminator c then None
          else match find_close r with
               | Some (g, r') => Some (String c g, r')
               | None => None
               end
      end
  end.

(** The replacement, scanning from the left: a match is replaced and the scan
    resumes after it; where no match starts, one character is copied.
    [fuel] bounds the number of steps; the length of the text is enough. *)
Fixpoint format_go (fuel : nat) (s : string) : string :=
  match fuel with
  | O => s
  | S n =>
      let copy := match s with
                  | EmptyString => EmptyString
                  | String c r => String c (format_go n r)
                  end in
      match two_stars s with
      | Some r =>
          match find_close r with
          | Some (g, r') => "<strong>" +:+ g +:+ "</strong>" +:+ format_go n r'
          | None => copy
          end
      | None => copy
      end
  end.

Definition formattedText (s : string) : string := format_go (String.length s) s.

(** Two asterisks in a row occur somewhere in [s]. *)
Fixpoint has_two_stars (s : string) : bool :=
  match two_stars s with
  | Some _ => true
  | None =>
      match s with
      | EmptyString => false
      | String _ r => has_two_stars r
      end
  end.

(** No asterisk occurs in [s]; no line terminator occurs in [s]. *)
Fixpoint star_free (s : string) : bool :=
  match s with
  | EmptyString => true
  | String c r => negb (is_star c) && star_free r
  end.

Fixpoint one_line (s : string) : bool :=
  match s with
  | EmptyString => true
  | String c r => negb (is_line_terminator c) && one_line r
  end.

(** *** The landing title, lines 32-40 *)

(** [charIndex], the text of [#landing-title], and whether a call of
    [typeLandingTitle] is pending on a timer. *)
Record Landing := { charIndex : nat; landingTitle : string; timer : bool }.

Definition titleText : string := "AI FAQ Bot Builder".

(** [s.charAt(i)] *)
Definition charAt (s : string) (i : nat) : string :=
  match String.get i s with
  | Some c => String c EmptyString
  | None => EmptyString
  end.

(** [typeLandingTitle()] for a title [text]; the call consumes the timer
    that made it and sets a new one when it has typed a character. *)
Definition typeLandingTitle_of (text : string) (l : Landing) : Landing :=
  if (charIndex l <? String.length text)%nat
  then {| charIndex := S (charIndex l);
          landingTitle := landingTitle l +:+ charAt text (charIndex l);
          timer := true |}
  else {| charIndex := charIndex l; landingTitle := landingTitle l; timer := false |}.

Definition typeLandingTitle : Landing -> Landing := typeLandingTitle_of titleText.

(** One hundred milliseconds pass: the pending call, if any, is made. *)
Definition landing_tick (text : string) (l : Landing) : Landing :=
  if timer l then typeLandingTitle_of text l else l.

Fixpoint landing_ticks (text : string) (n : nat) (l : Landing) : Landing :=
  match n with
  | O => l
  | S n' => landing_ticks text n' (landing_tick text l)
  end.

(** *** The theme, lines 272-275 and 309-313 *)

(** Whether [body] bears the class [dark-mode], whether the toggle is
    checked, and the [theme] slot of the store. *)
Record Theme := { dark_mode : bool; toggle_checked : bool; ls_theme : option string }.

(** The [change] listener, the user having set the toggle to [checked]. *)
Definition themeToggle_change (checked : bool) (t : Theme) : Theme :=
  {| dark_mode := checked; toggle_checked := checked;
     ls_theme := Some (if checked then "dark" else "light") |}.

(** Lines 309-313 of [init()] *)
Definition init_theme (t : Theme) : Theme :=
  if decide (ls_theme t = Some "dark")
  then {| dark_mode := true; toggle_checked := true; ls_theme := ls_theme t |}
  else t.

(** *** The example prompts, lines 287-292 *)

(** A click inside [#example-prompts] on an element with that tag name and
    that text, up to the first [await] of the submission. *)
Definition examplePrompts_click (tagName textContent : string) : Js (option Pending) :=
  if decide (tagName = "BUTTON")
  then modify (set_userInput textContent) ;; handleChatSubmit_start
  else mret None.

(** The page opened again, later, on the store that [w] left behind. *)
Definition reopened_later (w : World) : World :=
  {| allSessions := ∅; currentSessionId := None;
     ls_chatSessions := ls_chatSessions w; ls_currentSessionId := ls_currentSessionId w;
     chatHistory := []; userInput := EmptyString;
     notifications := []; requests := []; uploads := []; downloads := [];
     uploadProgressBar := WidthZero; builtins := pristine;
     date_now := clock_from 5000; date_reads := 0 |}.

(** * Proofs *)

Create HintDb js_ops.
#[global] Hint Unfold mbind Js_bind mret Js_ret modify gets throw try_catch : js_ops.

(** Unfold the monad down to pairs of a completion and a world. *)
Ltac js_simpl := autounfold with js_ops in *; cbn [fst snd] in *.

Section Frames.

Lemma same_repository_refl w : same_repository w w.
Proof. by repeat split. Qed.

Lemma same_repository_trans w1 w2 w3 :
  same_repository w1 w2 -> same_repository w2 w3 -> same_repository w1 w3.
Proof.
  unfold same_repository. intros H1 H2.
  destruct H1 as (?&?&?&?&?&?&?&?&?), H2 as (?&?&?&?&?&?&?&?&?).
  repeat split; congruence.
Qed.

Lemma addMessageToUI_frame sndr txt w :
  same_repository w (snd (addMessageToUI sndr txt w)).
Proof.
  unfold addMessageToUI, Date_now. js_simpl.
  destruct (decide (txt = JStr "typing...")); [by repeat split|].
  destruct txt; by repeat split.
Qed.

(** A string is always rendered. *)
Lemma addMessageToUI_string sndr s w :
  exists id h,
    addMessageToUI sndr (JStr s) w
    = (Normal id, set_chatHistory h (set_date_reads (S (date_reads w)) w)).
Proof.
  unfold addMessageToUI, Date_now. js_simpl.
  destruct (decide (JStr s = JStr "typing...")); eauto.
Qed.

Lemma forEach_frame {A} (f : A -> Js unit) (xs : list A) :
  (forall x w, same_repository w (snd (f x w))) ->
  forall w, same_repository w (snd (forEach f xs w)).
Proof.
  intros Hf. induction xs as [|x xs IH]; intros w; [apply same_repository_refl|].
  cbn [forEach]. js_simpl.
  pose proof (Hf x w) as Hx.
  destruct (f x w) as [[[]|e] w1]; cbn [snd] in *.
  - eapply same_repository_trans; [exact Hx|apply IH].
  - exact Hx.
Qed.

Lemma render_frame msgs w :
  same_repository w
    (snd (forEach (fun msg => addMessageToUI (sender msg) (text msg) ;; mret tt) msgs w)).
Proof.
  apply forEach_frame. intros m w0. js_simpl.
  pose proof (addMessageToUI_frame (sender m) (text m) w0) as Hm.
  by destruct (addMessageToUI (sender m) (text m) w0) as [[id|e] w1].
Qed.

Lemma loadChatHistory_frame w : same_repository w (snd (loadChatHistory w)).
Proof.
  assert (H0 : same_repository w (set_chatHistory [] w)) by by repeat split.
  unfold loadChatHistory. js_simpl.
  cbn [allSessions currentSessionId builtins set_chatHistory].
  destruct (allSessions w !! propkey (currentSessionId w)) as [s|].
  - eapply same_repository_trans; [exact H0|apply render_frame].
  - cbn [currentSessionId builtins set_chatHistory].
    destruct (inherited (builtins w) (propkey (currentSessionId w))) as [b|]; [|exact H0].
    destruct (builtin_messages (builtins w) b) as [msgs|]; [|exact H0].
    eapply same_repository_trans; [exact H0|apply render_frame].
Qed.

End Frames.

Example started_sessions :
  allSessions started
  = {[ "session-1000" := {| title := "Chat 1"; messages := [greeting] |} ]}
  /\ currentSessionId started = Some "session-1000".
Proof. split; [refine (bool_decide_unpack _ _)|]; vm_compute; done. Qed.

Example two_chats_sessions :
  allSessions two_chats
  = <[ "session-1003" := {| title := "Chat 2"; messages := [greeting] |} ]>
      {[ "session-1000" := {| title := "Chat 1"; messages := [greeting] |} ]}
  /\ currentSessionId two_chats = Some "session-1003".
Proof. split; [refine (bool_decide_unpack _ _)|]; vm_compute; done. Qed.

Section SwitchSession.

Variables (sessionId : string) (w : World).

Lemma switchSession_same :
  currentSessionId w = Some sessionId -> switchSession sessionId w = (Normal tt, w).
Proof.
  intros H. unfold switchSession. js_simpl. rewrite H.
  by rewrite decide_True.
Qed.

Lemma switchSession_other :
  currentSessionId w <> Some sessionId ->
  exists c w1,
    loadChatHistory (set_currentSessionId (Some sessionId) w) = (c, w1) /\
    switchSession sessionId w
    = match c with
      | Normal _ => (Normal tt, set_ls_currentSessionId (Some sessionId) w1)
      | Throw e => (Throw e, w1)
      end.
Proof.
  intros H. unfold switchSession, renderSessionList. js_simpl.
  rewrite decide_False by congruence.
  destruct (loadChatHistory _) as [[[]|e] w1]; eauto.
Qed.

Lemma switchSession_allSessions :
  allSessions (snd (switchSession sessionId w)) = allSessions w.
Proof.
  destruct (decide (currentSessionId w = Some sessionId)) as [Heq|Hne].
  - by rewrite switchSession_same.
  - destruct (switchSession_other Hne) as (c & w1 & Hload & ->).
    pose proof (loadChatHistory_frame (set_currentSessionId (Some sessionId) w)) as Hf.
    rewrite Hload in Hf. destruct Hf as (Ha & _).
    by destruct c.
Qed.

Lemma switchSession_active :
  currentSessionId (snd (switchSession sessionId w)) = Some sessionId.
Proof.
  destruct (decide (currentSessionId w = Some sessionId)) as [Heq|Hne].
  - by rewrite switchSession_same.
  - destruct (switchSession_other Hne) as (c & w1 & Hload & ->).
    pose proof (loadChatHistory_frame (set_currentSessionId (Some sessionId) w)) as Hf.
    rewrite Hload in Hf. destruct Hf as (_ & Hc & _).
    by destruct c.
Qed.

Lemma switchSession_valid_iff :
  active_valid (snd (switchSession sessionId w)) <-> is_Some (allSessions w !! sessionId).
Proof.
  unfold active_valid. rewrite switchSession_active, switchSession_allSessions.
  split.
  - intros (id' & [= <-] & H). exact H.
  - intros H. eauto.
Qed.

(** C10: [switchSession(id)] never changes [allSessions]: the keys and the
    title and messages of every session are what they were, for every id
    and every state, whether the call returns or throws while rendering.
    The stored copy of the sessions is not rewritten either; of the
    repository only the active id and its stored copy are assigned. *)
Theorem switchSession_keeps_sessions :
  allSessions (snd (switchSession sessionId w)) = allSessions w /\
  ls_chatSessions (snd (switchSession sessionId w)) = ls_chatSessions w /\
  forall k, allSessions (snd (switchSession sessionId w)) !! k = allSessions w !! k.
Proof.
  assert (H : allSessions (snd (switchSession sessionId w)) = allSessions w /\
              ls_chatSessions (snd (switchSession sessionId w)) = ls_chatSessions w).
  { destruct (decide (currentSessionId w = Some sessionId)) as [Heq|Hne].
    - by rewrite switchSession_same.
    - destruct (switchSession_other Hne) as (c & w1 & Hload & ->).
      pose proof (loadChatHistory_frame (set_currentSessionId (Some sessionId) w)) as Hf.
      rewrite Hload in Hf. destruct Hf as (Ha & _ & Hl & _).
      by destruct c. }
  destruct H as [Ha Hl]. split; [exact Ha|]. split; [exact Hl|].
  intros k. by rewrite Ha.
Qed.

(** C2, as the code has it: [switchSession(id)] makes [id] the active id
    for every id, known or not (it is left unchanged only when [id] already
    was the active id); hence the active id references an existing key
    afterwards exactly when [id] is a key of [allSessions]. *)
Theorem switchSession_sets_active :
  currentSessionId (snd (switchSession sessionId w)) = Some sessionId /\
  (active_valid (snd (switchSession sessionId w)) <-> is_Some (allSessions w !! sessionId)).
Proof. split; [apply switchSession_active|apply switchSession_valid_iff]. Qed.

End SwitchSession.

(** Switching twice to the same id is switching once. *)
Lemma switchSession_idempotent sessionId w :
  switchSession sessionId (snd (switchSession sessionId w))
  = (Normal tt, snd (switchSession sessionId w)).
Proof. apply switchSession_same, switchSession_active. Qed.

(** C2 fails as stated: in [started] the mapping is not empty and the
    active id [session-1000] is a key; [session-404] is not a key, yet
    [switchSession('session-404')] makes it the active id, which then
    references no session. *)
Lemma switchSession_unknown_id_switches :
  allSessions started <> ∅ /\
  active_valid started /\
  currentSessionId started = Some "session-1000" /\
  allSessions started !! "session-404" = None /\
  currentSessionId (snd (switchSession "session-404" started)) = Some "session-404" /\
  ~ active_valid (snd (switchSession "session-404" started)).
Proof.
  assert (Hnone : allSessions started !! "session-404" = None) by (vm_compute; reflexivity).
  split; [|split; [|split; [|split; [|split]]]].
  - intros H.
    assert (Hs : size (allSessions started) = 0%nat) by (rewrite H; apply map_size_empty).
    vm_compute in Hs. discriminate.
  - exists "session-1000". split; [vm_compute; reflexivity|].
    vm_compute. eauto.
  - vm_compute; reflexivity.
  - exact Hnone.
  - apply switchSession_active.
  - intros H. apply switchSession_valid_iff in H.
    rewrite Hnone in H. by destruct H.
Qed.

Section CreateNewSession.

Lemma addMessageToUI_formatted sndr s w :
  s <> "typing..." ->
  addMessageToUI sndr (JStr s) w
  = (Normal ("msg-" +:+ pretty (date_now w (date_reads w))),
     set_chatHistory
       (chatHistory w ++ [{| div_id := "msg-" +:+ pretty (date_now w (date_reads w));
                             div_sender := sndr; div_bubble := Formatted s |}])
       (set_date_reads (S (date_reads w)) w)).
Proof.
  intros Hs. unfold addMessageToUI, Date_now. js_simpl.
  rewrite decide_False by congruence. reflexivity.
Qed.

Lemma createNewSession_result w :
  exists w',
    createNewSession w = (Normal tt, w') /\
    allSessions w'
    = <[ next_session_id w :=
           {| title := "Chat " +:+ pretty (size (allSessions w) + 1)%nat;
              messages := [greeting] |} ]> (allSessions w) /\
    currentSessionId w' = Some (next_session_id w) /\
    ls_chatSessions w' = SessionsJson (allSessions w') /\
    ls_currentSessionId w' = Some (next_session_id w) /\
    date_now w' = date_now w /\ date_reads w' = S (S (date_reads w)).
Proof.
  unfold createNewSession, Date_now, renderSessionList, loadChatHistory, saveSessions.
  js_simpl. cbn. rewrite lookup_insert_eq. cbn [messages forEach greeting sender text].
  js_simpl. rewrite addMessageToUI_formatted by discriminate. cbn.
  eexists. split; [reflexivity|]. cbn. by repeat split.
Qed.

(** C5, as the code has it: when the id made from the clock reading,
    [session-<Date.now()>], is not yet a key, one call of
    [createNewSession] returns, adds under that id a session titled
    Chat N, N the former number of sessions plus one, holding the greeting
    alone, leaves every other session as it was, makes the new session
    active and raises the number of sessions by exactly one. *)
Theorem createNewSession_fresh_id (w : World) :
  allSessions w !! next_session_id w = None ->
  exists w',
    createNewSession w = (Normal tt, w') /\
    allSessions w' !! next_session_id w
    = Some {| title := "Chat " +:+ pretty (size (allSessions w) + 1)%nat;
              messages := [greeting] |} /\
    (forall k, k <> next_session_id w -> allSessions w' !! k = allSessions w !! k) /\
    currentSessionId w' = Some (next_session_id w) /\
    size (allSessions w') = S (size (allSessions w)).
Proof.
  intros Hfresh.
  destruct (createNewSession_result w) as (w' & Hrun & Hall & Hcur & _).
  exists w'. rewrite Hall. split; [exact Hrun|]. split; [apply lookup_insert_eq|].
  split; [|split; [exact Hcur|by apply map_size_insert_None]].
  intros k Hk. by apply lookup_insert_ne.
Qed.

Lemma createNewSession_fresh_id_witness :
  allSessions started !! next_session_id started = None /\
  exists w',
    createNewSession started = (Normal tt, w') /\
    allSessions w' !! next_session_id started
    = Some {| title := "Chat " +:+ pretty (size (allSessions started) + 1)%nat;
              messages := [greeting] |} /\
    (forall k, k <> next_session_id started -> allSessions w' !! k = allSessions started !! k) /\
    currentSessionId w' = Some (next_session_id started) /\
    size (allSessions w') = S (size (allSessions started)).
Proof.
  split; [vm_compute; reflexivity|].
  apply (createNewSession_fresh_id started). vm_compute; reflexivity.
Defined.

(** C5 fails as stated: two calls within one millisecond generate the same
    id.  After the first call [session-1000] is a key; the second call
    generates [session-1000] again, stores the new session over the first
    one, and the number of sessions stays 1. *)
Lemma createNewSession_same_millisecond :
  let w1 := snd (createNewSession same_ms_page) in
  let w2 := snd (createNewSession w1) in
  is_Some (allSessions w1 !! "session-1000") /\
  next_session_id w1 = "session-1000" /\
  size (allSessions w1) = 1%nat /\
  size (allSessions w2) = 1%nat /\
  allSessions w2 !! "session-1000"
  = Some {| title := "Chat 2"; messages := [greeting] |}.
Proof. vm_compute. repeat split; eauto. Qed.

Lemma session_id_inj a b : session_id a = session_id b -> a = b.
Proof.
  unfold session_id. cbn. intros [= H]. by apply (inj pretty).
Qed.

End CreateNewSession.

Section LoadSessions.

Lemma loadSessions_read_parsed w m :
  parse_chatSessions (ls_chatSessions w) w = (Normal m, w) ->
  loadSessions_read w
  = (Normal tt, set_currentSessionId (ls_currentSessionId w) (set_allSessions m w)).
Proof. intros H. unfold loadSessions_read. js_simpl. by rewrite H. Qed.

Lemma loadSessions_malformed w raw msg :
  ls_chatSessions w = Malformed raw msg ->
  loadSessions w = (Throw (Thrown SyntaxError msg), w) /\
  init w = (Throw (Thrown SyntaxError msg), w).
Proof.
  intros H. unfold init, loadSessions, loadSessions_read. js_simpl. by rewrite H.
Qed.

(** Line 93 when the stored id is null, empty, or names neither a session
    nor an inherited property: a session is created. *)
Lemma loadSessions_creates w m :
  parse_chatSessions (ls_chatSessions w) w = (Normal m, w) ->
  falsy_id (ls_currentSessionId w) = true \/
  (m !! propkey (ls_currentSessionId w) = None /\
   inherited (builtins w) (propkey (ls_currentSessionId w)) = None) ->
  loadSessions w
  = createNewSession (set_currentSessionId (ls_currentSessionId w) (set_allSessions m w)).
Proof.
  intros Hparse Hid. unfold loadSessions. js_simpl.
  rewrite (loadSessions_read_parsed w m Hparse).
  cbn [currentSessionId allSessions builtins set_currentSessionId set_allSessions].
  destruct Hid as [-> | [-> ->]]; [done|].
  by rewrite !bool_decide_eq_true_2, orb_true_r.
Qed.

(** Line 93 when the stored id names a session. *)
Lemma loadSessions_keeps w m :
  parse_chatSessions (ls_chatSessions w) w = (Normal m, w) ->
  falsy_id (ls_currentSessionId w) = false ->
  is_Some (m !! propkey (ls_currentSessionId w)) ->
  loadSessions w
  = (Normal tt, set_currentSessionId (ls_currentSessionId w) (set_allSessions m w)).
Proof.
  intros Hparse Hid [s Hs]. unfold loadSessions. js_simpl.
  rewrite (loadSessions_read_parsed w m Hparse).
  cbn [currentSessionId allSessions builtins set_currentSessionId set_allSessions].
  by rewrite Hid, Hs, bool_decide_eq_false_2.
Qed.

(** Line 93 when the stored id names an inherited property: the guard is
    false, no session is created, and the id is kept. *)
Lemma loadSessions_keeps_inherited w m b :
  parse_chatSessions (ls_chatSessions w) w = (Normal m, w) ->
  falsy_id (ls_currentSessionId w) = false ->
  inherited (builtins w) (propkey (ls_currentSessionId w)) = Some b ->
  loadSessions w
  = (Normal tt, set_currentSessionId (ls_currentSessionId w) (set_allSessions m w)).
Proof.
  intros Hparse Hid Hb. unfold loadSessions. js_simpl.
  rewrite (loadSessions_read_parsed w m Hparse).
  cbn [currentSessionId allSessions builtins set_currentSessionId set_allSessions].
  rewrite Hid, Hb, (bool_decide_eq_false_2 (Some b = None)) by discriminate.
  by rewrite andb_false_r.
Qed.

(** With nothing to read back and no inherited name as the stored id,
    [loadSessions] creates the first session and [init] renders it. *)
Lemma init_from_empty w :
  parse_chatSessions (ls_chatSessions w) w = (Normal ∅, w) ->
  falsy_id (ls_currentSessionId w) = true \/
  inherited (builtins w) (propkey (ls_currentSessionId w)) = None ->
  returns (loadSessions w) /\ returns (init w) /\
  size (allSessions (snd (init w))) = 1%nat /\ active_valid (snd (init w)).
Proof.
  intros H Hid.
  set (w0 := set_currentSessionId (ls_currentSessionId w) (set_allSessions ∅ w)) in *.
  destruct (createNewSession_result w0) as (w1 & Hrun & Hall & Hcur & _).
  assert (Hload : loadSessions w = (Normal tt, w1)).
  { rewrite (loadSessions_creates w ∅ H); [exact Hrun|].
    destruct Hid as [Hid|Hid]; [by left|right]. split; [apply lookup_empty|exact Hid]. }
  assert (Hlook : allSessions w1 !! propkey (currentSessionId w1)
                  = Some {| title := "Chat " +:+ pretty (size (allSessions w0) + 1)%nat;
                            messages := [greeting] |}).
  { rewrite Hcur, Hall. apply lookup_insert_eq. }
  assert (Hinit : exists w2, init w = (Normal tt, w2) /\ same_repository w1 w2).
  { unfold init, renderSessionList. js_simpl. rewrite Hload.
    pose proof (loadChatHistory_frame w1) as Hf.
    unfold loadChatHistory in *. js_simpl. cbn [allSessions currentSessionId set_chatHistory] in *.
    rewrite Hlook in *. cbn [messages forEach greeting sender text] in *. js_simpl.
    rewrite addMessageToUI_formatted in * by discriminate. eauto. }
  destruct Hinit as (w2 & Hinit & (Ha & Hc & _)).
  unfold returns. rewrite Hload, Hinit. cbn [fst snd].
  repeat split.
  - rewrite Ha, Hall. cbn. rewrite map_size_insert_None by apply lookup_empty.
    by rewrite map_size_empty.
  - exists (next_session_id w0). rewrite Hc, Ha. split; [exact Hcur|].
    rewrite Hall, lookup_insert_eq. eauto.
Qed.

(** Line 136 on an inherited object without messages. *)
Lemma loadChatHistory_undefined_messages w b :
  allSessions w !! propkey (currentSessionId w) = None ->
  inherited (builtins w) (propkey (currentSessionId w)) = Some b ->
  builtin_messages (builtins w) b = None ->
  loadChatHistory w = (Throw (cannot_read "undefined" "forEach"), set_chatHistory [] w).
Proof.
  intros Hs Hb Hm. unfold loadChatHistory. js_simpl.
  cbn [allSessions currentSessionId builtins set_chatHistory].
  rewrite Hs. cbn [allSessions currentSessionId builtins set_chatHistory].
  by rewrite Hb, Hm.
Qed.

(** With nothing to read back and an inherited name as the stored id, no
    session is created, and [init] fails in [loadChatHistory] unless the
    inherited object bears messages. *)
Lemma init_from_empty_inherited w b :
  parse_chatSessions (ls_chatSessions w) w = (Normal ∅, w) ->
  falsy_id (ls_currentSessionId w) = false ->
  inherited (builtins w) (propkey (ls_currentSessionId w)) = Some b ->
  loadSessions w
  = (Normal tt, set_currentSessionId (ls_currentSessionId w) (set_allSessions ∅ w)) /\
  allSessions (snd (init w)) = ∅ /\
  currentSessionId (snd (init w)) = ls_currentSessionId w /\
  (builtin_messages (builtins w) b = None ->
   init w
   = (Throw (cannot_read "undefined" "forEach"),
      set_chatHistory []
        (set_currentSessionId (ls_currentSessionId w) (set_allSessions ∅ w)))).
Proof.
  intros H Hid Hb.
  pose proof (loadSessions_keeps_inherited w ∅ b H Hid Hb) as Hload.
  set (w0 := set_currentSessionId (ls_currentSessionId w) (set_allSessions ∅ w)) in *.
  assert (Hinit : init w = loadChatHistory w0).
  { unfold init, renderSessionList. js_simpl. rewrite Hload.
    by destruct (loadChatHistory w0) as [[[]|e] w1]. }
  split; [exact Hload|]. rewrite Hinit.
  destruct (loadChatHistory_frame w0) as (Ha & Hc & _).
  split; [exact Ha|]. split; [exact Hc|].
  intros Hm. rewrite loadChatHistory_undefined_messages with (b := b); done.
Qed.

(** C3, as the code has it: what startup does follows the sessions slot.
    With no stored text (or the text of a falsy JSON value) the two reads
    give an empty mapping and the stored id, null when that slot is absent
    too, and nothing is raised by [loadSessions].  It then creates the first
    session and [init] completes, unless the stored id is the name of a
    property every object inherits ([constructor], [toString], ...): that
    id passes the test of line 93, no session is created, the active id names
    no session, and [init] ends by a [TypeError] in [loadChatHistory], the
    object found bearing no messages (as on every page just loaded).  With
    text that is not JSON the [SyntaxError] of [JSON.parse] leaves
    [loadSessions] and [init], the state untouched.  With the text
    [saveSessions] wrote, the mapping is read back. *)
Theorem loadSessions_by_slot (w : World) :
  match ls_chatSessions w with
  | Absent | FalsyJson =>
      loadSessions_read w
      = (Normal tt, set_currentSessionId (ls_currentSessionId w) (set_allSessions ∅ w)) /\
      returns (loadSessions w) /\
      match (if falsy_id (ls_currentSessionId w) then None
             else inherited (builtins w) (propkey (ls_currentSessionId w))) with
      | None =>
          returns (init w) /\
          size (allSessions (snd (init w))) = 1%nat /\ active_valid (snd (init w))
      | Some b =>
          loadSessions w
          = (Normal tt,
             set_currentSessionId (ls_currentSessionId w) (set_allSessions ∅ w)) /\
          allSessions (snd (init w)) = ∅ /\
          currentSessionId (snd (init w)) = ls_currentSessionId w /\
          ~ active_valid (snd (init w)) /\
          (builtin_messages (builtins w) b = None ->
           init w
           = (Throw (cannot_read "undefined" "forEach"),
              set_chatHistory []
                (set_currentSessionId (ls_currentSessionId w) (set_allSessions ∅ w))))
      end
  | Malformed raw msg =>
      loadSessions w = (Throw (Thrown SyntaxError msg), w) /\
      init w = (Throw (Thrown SyntaxError msg), w)
  | SessionsJson m =>
      loadSessions_read w
      = (Normal tt, set_currentSessionId (ls_currentSessionId w) (set_allSessions m w))
  end.
Proof.
  assert (Hempty : parse_chatSessions (ls_chatSessions w) w = (Normal ∅, w) ->
            loadSessions_read w
            = (Normal tt, set_currentSessionId (ls_currentSessionId w) (set_allSessions ∅ w)) /\
            returns (loadSessions w) /\
            match (if falsy_id (ls_currentSessionId w) then None
                   else inherited (builtins w) (propkey (ls_currentSessionId w))) with
            | None =>
                returns (init w) /\
                size (allSessions (snd (init w))) = 1%nat /\ active_valid (snd (init w))
            | Some b =>
                loadSessions w
                = (Normal tt,
                   set_currentSessionId (ls_currentSessionId w) (set_allSessions ∅ w)) /\
                allSessions (snd (init w)) = ∅ /\
                currentSessionId (snd (init w)) = ls_currentSessionId w /\
                ~ active_valid (snd (init w)) /\
                (builtin_messages (builtins w) b = None ->
                 init w
                 = (Throw (cannot_read "undefined" "forEach"),
                    set_chatHistory []
                      (set_currentSessionId (ls_currentSessionId w) (set_allSessions ∅ w))))
            end).
  { intros H. split; [by apply loadSessions_read_parsed|].
    destruct (falsy_id (ls_currentSessionId w)) eqn:Hid;
      [|destruct (inherited (builtins w) (propkey (ls_currentSessionId w))) as [b|] eqn:Hb].
    - destruct (init_from_empty w H) as (H1 & H2 & H3 & H4); [by left|done].
    - destruct (init_from_empty_inherited w b H Hid Hb) as (Hload & Ha & Hc & Hthrow).
      split; [unfold returns; by rewrite Hload|].
      split; [exact Hload|]. split; [exact Ha|]. split; [exact Hc|]. split; [|exact Hthrow].
      intros (id & _ & s & Hs). rewrite Ha, lookup_empty in Hs. discriminate.
    - destruct (init_from_empty w H) as (H1 & H2 & H3 & H4); [by right|done]. }
  destruct (ls_chatSessions w) as [|raw msg| |m] eqn:Hslot.
  - by apply Hempty.
  - by apply (loadSessions_malformed w raw).
  - by apply Hempty.
  - apply loadSessions_read_parsed. by rewrite Hslot.
Qed.

Lemma loadSessions_by_slot_witness :
  (returns (init fresh_page) /\
   size (allSessions (snd (init fresh_page))) = 1%nat /\ active_valid (snd (init fresh_page))) /\
  (ls_currentSessionId constructor_page = Some "constructor" /\
   loadSessions constructor_page
   = (Normal tt, set_currentSessionId (Some "constructor") (set_allSessions ∅ constructor_page)) /\
   init constructor_page
   = (Throw (cannot_read "undefined" "forEach"),
      set_chatHistory []
        (set_currentSessionId (Some "constructor") (set_allSessions ∅ constructor_page)))).
Proof.
  split.
  - pose proof (loadSessions_by_slot fresh_page) as H.
    change (ls_chatSessions fresh_page) with Absent in H. cbv iota in H.
    destruct H as (_ & _ & H). exact H.
  - pose proof (loadSessions_by_slot constructor_page) as H.
    change (ls_chatSessions constructor_page) with Absent in H. cbv iota in H.
    destruct H as (_ & _ & H).
    change (ls_currentSessionId constructor_page) with (Some "constructor") in H.
    assert (Hb : inherited (builtins constructor_page) (propkey (Some "constructor"))
                 = Some (Method "constructor")) by (vm_compute; reflexivity).
    cbn [falsy_id] in H. rewrite Hb in H.
    destruct H as (Hload & _ & _ & _ & Hinit).
    split; [reflexivity|]. split; [exact Hload|]. apply Hinit. reflexivity.
Defined.

(** C3 fails as stated: with the text [[object Object]] in the sessions
    slot, [JSON.parse] raises, and the error leaves [loadSessions] and
    [init]: no empty mapping is returned and startup stops. *)
Lemma loadSessions_corrupt_store_throws :
  ls_chatSessions corrupt_page
  = Malformed "[object Object]" "Unexpected token o in JSON at position 1" /\
  loadSessions corrupt_page
  = (Throw (Thrown SyntaxError "Unexpected token o in JSON at position 1"), corrupt_page) /\
  init corrupt_page
  = (Throw (Thrown SyntaxError "Unexpected token o in JSON at position 1"), corrupt_page) /\
  throws (init corrupt_page).
Proof. repeat split. Qed.

End LoadSessions.

Section ClearChat.

Lemma clearChat_result w s :
  allSessions w !! propkey (currentSessionId w) = Some s ->
  exists w',
    clearChat w = (Normal tt, w') /\
    allSessions w'
    = <[ propkey (currentSessionId w) := {| title := title s; messages := [greeting] |} ]>
        (allSessions w) /\
    currentSessionId w' = currentSessionId w /\
    ls_chatSessions w' = SessionsJson (allSessions w') /\
    notifications w' = notifications w ++ [(JStr "Chat cleared", false)].
Proof.
  intros Hs. unfold clearChat, saveSessions, showNotification. js_simpl. rewrite Hs.
  rewrite addMessageToUI_formatted by discriminate. cbn.
  eexists. split; [reflexivity|]. by repeat split.
Qed.

(** C7: when the active session exists, [clearChat()] returns and leaves in
    it exactly one message, the greeting, under the same title; every other
    session is what it was, and the active id is unchanged. *)
Theorem clearChat_leaves_greeting (w : World) (id : string) (s : Session) :
  currentSessionId w = Some id ->
  allSessions w !! id = Some s ->
  exists w',
    clearChat w = (Normal tt, w') /\
    allSessions w' !! id = Some {| title := title s; messages := [greeting] |} /\
    (forall k, k <> id -> allSessions w' !! k = allSessions w !! k) /\
    currentSessionId w' = Some id.
Proof.
  intros Hcur Hs.
  destruct (clearChat_result w s) as (w' & Hrun & Hall & Hc & _).
  { by rewrite Hcur. }
  rewrite Hcur in *. cbn [propkey] in *.
  exists w'. rewrite Hall. split; [exact Hrun|].
  split; [apply lookup_insert_eq|]. split; [|exact Hc].
  intros k Hk. by apply lookup_insert_ne.
Qed.

Lemma clearChat_leaves_greeting_witness :
  currentSessionId answered = Some "session-1000" /\
  length (messages (default {| title := EmptyString; messages := [] |}
                      (allSessions answered !! "session-1000"))) = 3%nat /\
  exists w',
    clearChat answered = (Normal tt, w') /\
    allSessions w' !! "session-1000" = Some {| title := "Chat 1"; messages := [greeting] |} /\
    (forall k, k <> "session-1000" -> allSessions w' !! k = allSessions answered !! k) /\
    currentSessionId w' = Some "session-1000".
Proof.
  split; [vm_compute; reflexivity|].
  split; [vm_compute; reflexivity|].
  apply (clearChat_leaves_greeting answered "session-1000"
           {| title := "Chat 1";
              messages := [greeting; {| sender := user; text := JStr "What is X?" |};
                           {| sender := bot; text := JStr "X is Y" |}] |});
    vm_compute; reflexivity.
Defined.

End ClearChat.

Section Trim.

Lemma trimStart_white s : all_white_space s = true -> trimStart s = EmptyString.
Proof.
  induction s as [|c r IH]; cbn; [done|].
  intros [Hc Hr]%andb_prop. rewrite Hc. by apply IH.
Qed.

Lemma trimEnd_empty s : trimEnd s = EmptyString -> all_white_space s = true.
Proof.
  induction s as [|c r IH]; cbn; [done|].
  destruct (trimEnd r) eqn:Hr; [|discriminate].
  destruct (is_white_space c); [|discriminate].
  intros _. by apply IH.
Qed.

Lemma trimStart_not_white s c r : trimStart s = String c r -> is_white_space c = false.
Proof.
  induction s as [|c' r' IH]; cbn; [discriminate|].
  destruct (is_white_space c') eqn:Hc; [exact IH|].
  intros [= <- <-]. exact Hc.
Qed.

(** The trimmed text is empty exactly for the empty and the all-blank
    inputs. *)
Lemma trim_empty_iff s : trim s = EmptyString <-> all_white_space s = true.
Proof.
  unfold trim. split.
  - intros H. apply trimEnd_empty in H.
    destruct (trimStart s) as [|c r] eqn:Hs.
    + clear H. induction s as [|c r IH]; cbn in *; [done|].
      destruct (is_white_space c); [by apply IH|discriminate].
    + apply trimStart_not_white in Hs. cbn in H. by rewrite Hs in H.
  - intros H. by rewrite trimStart_white.
Qed.

End Trim.

Section EmptySubmission.

(** C9: when the trimmed text of the input is empty, the submission
    returns at once and the whole state is what it was: no message in any
    session, no request to the endpoint, nothing stored or rendered. *)
Theorem handleChatSubmit_empty_input (w : World) :
  trim (userInput w) = EmptyString ->
  handleChatSubmit_start w = (Normal None, w).
Proof.
  intros H. unfold handleChatSubmit_start. js_simpl. by rewrite H.
Qed.

Lemma handleChatSubmit_empty_input_witness :
  trim (userInput blank_input) = EmptyString /\
  handleChatSubmit_start blank_input = (Normal None, blank_input).
Proof.
  split; [reflexivity|].
  apply (handleChatSubmit_empty_input blank_input). reflexivity.
Defined.

Lemma handleChatSubmit_blank_input w :
  all_white_space (userInput w) = true ->
  handleChatSubmit_start w = (Normal None, w) /\
  allSessions (snd (handleChatSubmit_start w)) = allSessions w /\
  requests (snd (handleChatSubmit_start w)) = requests w.
Proof.
  intros H%trim_empty_iff. unfold handleChatSubmit_start. js_simpl. by rewrite H.
Qed.

End EmptySubmission.

Section ChatSubmission.

Variable p : Pending.

Ltac render_string :=
  match goal with
  | |- context [addMessageToUI ?a (JStr ?s) ?w] =>
      let id := fresh "id" in
      let h := fresh "h" in
      let E := fresh "E" in
      destruct (addMessageToUI_string a s w) as (id & h & E); rewrite E; clear E;
      cbv beta iota
  end.

Lemma push_message_active m w s :
  allSessions w !! propkey (currentSessionId w) = Some s ->
  push_message m w
  = (Normal tt,
     set_allSessions (<[ propkey (currentSessionId w) := pushed s m ]> (allSessions w)) w).
Proof. intros H. unfold push_message. js_simpl. by rewrite H. Qed.

Lemma push_message_dangling m w e :
  push_error w = Some e ->
  push_message m w = (Throw e, w).
Proof.
  unfold push_error, push_message. js_simpl.
  destruct (allSessions w !! propkey (currentSessionId w)); [discriminate|].
  destruct (inherited (builtins w) (propkey (currentSessionId w))) as [b|];
    [|by intros [= <-]].
  destruct (builtin_messages (builtins w) b); [discriminate|by intros [= <-]].
Qed.

(** Line 146 on an inherited object that bears messages: the message is
    pushed there, and the sessions are what they were. *)
Lemma push_message_inherited m w b msgs :
  allSessions w !! propkey (currentSessionId w) = None ->
  inherited (builtins w) (propkey (currentSessionId w)) = Some b ->
  builtin_messages (builtins w) b = Some msgs ->
  push_message m w = (Normal tt, set_builtins (builtin_push m b (builtins w)) w).
Proof.
  intros Hs Hb Hm. unfold push_message. js_simpl. by rewrite Hs, Hb, Hm.
Qed.

Lemma addMessageToUI_not_string sndr v w :
  is_string v = false ->
  addMessageToUI sndr v w = (Throw (render_error v), set_date_reads (S (date_reads w)) w).
Proof.
  intros Hv. unfold addMessageToUI, Date_now. js_simpl.
  destruct v; try discriminate; by rewrite decide_False by discriminate.
Qed.

(** Lines 142-159 on a text that is not blank. *)
Lemma handleChatSubmit_start_sends w s c t :
  allSessions w !! propkey (currentSessionId w) = Some s ->
  trim (userInput w) = String c t ->
  exists p' w1,
    handleChatSubmit_start w = (Normal (Some p'), w1) /\
    userText p' = String c t /\
    allSessions w1
    = <[ propkey (currentSessionId w) :=
           pushed s {| sender := user; text := JStr (String c t) |} ]> (allSessions w) /\
    currentSessionId w1 = currentSessionId w /\
    requests w1 = requests w ++ [String c t] /\
    ls_chatSessions w1 = SessionsJson (allSessions w1).
Proof.
  intros Hs Ht. unfold handleChatSubmit_start. js_simpl. rewrite Ht.
  rewrite (push_message_active _ w s Hs).
  render_string. unfold saveSessions. js_simpl. render_string.
  do 2 eexists. split; [reflexivity|]. by repeat split.
Qed.

(** Line 146 with an active id that names no session: the error leaves the
    handler before anything is pushed or sent. *)
Lemma handleChatSubmit_start_dangling w c t e :
  push_error w = Some e ->
  trim (userInput w) = String c t ->
  handleChatSubmit_start w = (Throw e, w).
Proof.
  intros Hs Ht. unfold handleChatSubmit_start. js_simpl. rewrite Ht.
  by rewrite (push_message_dangling _ w e Hs).
Qed.

(** The [catch] block with an active session to write to. *)
Lemma handleChatSubmit_catch_appends e w s :
  allSessions w !! propkey (currentSessionId w) = Some s ->
  exists w',
    handleChatSubmit_catch p e w = (Normal tt, w') /\
    allSessions w'
    = <[ propkey (currentSessionId w) := pushed s (error_text (err_message e)) ]>
        (allSessions w) /\
    currentSessionId w' = currentSessionId w /\
    requests w' = requests w.
Proof.
  intros Hs. unfold handleChatSubmit_catch, removeById. js_simpl.
  rewrite (push_message_active _ _ s) by exact Hs.
  render_string. unfold saveSessions. js_simpl.
  eexists. split; [reflexivity|]. by repeat split.
Qed.

(** The [catch] block when the active id names no session: the push of
    line 176 raises and the error leaves the handler. *)
Lemma handleChatSubmit_catch_dangling e w e' :
  push_error w = Some e' ->
  throws (handleChatSubmit_catch p e w).
Proof.
  intros Hs. unfold handleChatSubmit_catch, removeById, throws. js_simpl.
  rewrite (push_message_dangling _ _ e') by exact Hs. exact I.
Qed.

Lemma handleChatSubmit_fetched_resolved r w :
  handleChatSubmit_fetched p (Resolved r) w
  = (Normal (Some r), set_chatHistory (remove_first_id (typingId p) (chatHistory w)) w).
Proof. reflexivity. Qed.

(** Lines 163-179 with an active session to write to: the handler returns,
    and the session has grown by the messages of the reply. *)
Lemma handleChatSubmit_body_appends r w s :
  allSessions w !! propkey (currentSessionId w) = Some s ->
  exists w',
    handleChatSubmit_body p r w = (Normal tt, w') /\
    allSessions w'
    = <[ propkey (currentSessionId w) :=
           {| title := title s; messages := messages s ++ reply_messages r |} ]>
        (allSessions w) /\
    currentSessionId w' = currentSessionId w /\
    requests w' = requests w.
Proof.
  intros Hs.
  assert (Hcatch : forall e w0 m,
            allSessions w0 = allSessions w -> currentSessionId w0 = currentSessionId w ->
            requests w0 = requests w ->
            m = error_text (err_message e) ->
            exists w', handleChatSubmit_catch p e w0 = (Normal tt, w') /\
              allSessions w'
              = <[ propkey (currentSessionId w) :=
                     {| title := title s; messages := messages s ++ [m] |} ]> (allSessions w) /\
              currentSessionId w' = currentSessionId w /\ requests w' = requests w).
  { intros e w0 m Ha Hc Hr ->.
    destruct (handleChatSubmit_catch_appends e w0 s) as (w' & -> & Ha' & Hc' & Hr');
      [by rewrite Ha, Hc|].
    exists w'. rewrite Ha', Hc', Hr', Ha, Hc, Hr. by repeat split. }
  unfold handleChatSubmit_body, reply_messages, response_json, read_prop. js_simpl.
  destruct (body r) as [msg| |fields]; destruct (ok r); cbv beta iota;
    try (by apply Hcatch).
  destruct (get_field fields "answer") as [| |b|a] eqn:Hanswer; cbn [is_string];
    rewrite (push_message_active _ w s Hs); cbv beta iota.
  4: { render_string. unfold saveSessions. js_simpl.
       eexists. split; [reflexivity|]. by repeat split. }
  all: rewrite addMessageToUI_not_string by reflexivity; cbv beta iota.
  all: match goal with
       | |- context [handleChatSubmit_catch p ?e ?w1] =>
           destruct (handleChatSubmit_catch_appends e w1
                       (pushed s (bot_says (get_field fields "answer"))))
             as (w' & -> & Ha & Hc & Hr);
             [rewrite Hanswer; cbn; apply lookup_insert_eq|]
       end.
  all: exists w'; split; [reflexivity|]; rewrite Ha, Hc, Hr, Hanswer; cbn.
  all: rewrite insert_insert_eq; unfold pushed; cbn; rewrite <- app_assoc; by repeat split.
Qed.

(** The same for the whole continuation, when nothing runs between the
    two [await]s. *)
Lemma handleChatSubmit_settle_appends f w s :
  allSessions w !! propkey (currentSessionId w) = Some s ->
  exists w',
    handleChatSubmit_settle p f w = (Normal tt, w') /\
    allSessions w'
    = <[ propkey (currentSessionId w) :=
           {| title := title s; messages := messages s ++ settle_messages f |} ]>
        (allSessions w) /\
    currentSessionId w' = currentSessionId w /\
    requests w' = requests w.
Proof.
  intros Hs. unfold handleChatSubmit_settle. destruct f as [e|r]; cbn [settle_messages].
  - unfold handleChatSubmit_fetched. js_simpl.
    destruct (handleChatSubmit_catch_appends e w s Hs) as (w' & -> & Ha & Hc & Hr).
    eauto.
  - js_simpl. rewrite handleChatSubmit_fetched_resolved. cbv beta iota.
    apply (handleChatSubmit_body_appends r (set_chatHistory _ w) s Hs).
Qed.

(** Lines 168-171 on a 2xx reply whose [answer] is a string. *)
Lemma handleChatSubmit_body_answer r fields a w s :
  ok r = true ->
  body r = JsonObject fields ->
  fields !! "answer" = Some (JStr a) ->
  allSessions w !! propkey (currentSessionId w) = Some s ->
  exists w',
    handleChatSubmit_body p r w = (Normal tt, w') /\
    allSessions w'
    = <[ propkey (currentSessionId w) := pushed s (bot_says (JStr a)) ]> (allSessions w) /\
    currentSessionId w' = currentSessionId w /\
    requests w' = requests w.
Proof.
  intros Hok Hbody Ha Hs.
  destruct (handleChatSubmit_body_appends r w s Hs) as (w' & Hrun & Hall & Hrest).
  exists w'. split; [exact Hrun|]. split; [|exact Hrest].
  rewrite Hall. unfold reply_messages, get_field. by rewrite Hbody, Hok, Ha.
Qed.

(** A reply that raises before the push of line 169 leaves exactly one
    message behind it, the error text, in the session active at that
    time. *)
Lemma handleChatSubmit_settle_rejection f msg w s :
  rejection_message f = Some msg ->
  allSessions w !! propkey (currentSessionId w) = Some s ->
  exists w',
    handleChatSubmit_settle p f w = (Normal tt, w') /\
    allSessions w'
    = <[ propkey (currentSessionId w) := pushed s (error_text msg) ]> (allSessions w) /\
    currentSessionId w' = currentSessionId w.
Proof.
  intros Hmsg Hs.
  destruct (handleChatSubmit_settle_appends f w s Hs) as (w' & Hrun & Hall & Hc & _).
  exists w'. split; [exact Hrun|]. split; [|exact Hc]. rewrite Hall.
  assert (Hm : settle_messages f = [error_text msg]); [|by rewrite Hm].
  destruct f as [e|r]; cbn [settle_messages rejection_message] in *.
  - by injection Hmsg as <-.
  - unfold reply_messages.
    destruct (body r) as [m| |fields]; destruct (ok r); try discriminate;
      by injection Hmsg as <-.
Qed.

(** A 2xx reply whose parsed body holds no string under [answer]: the
    value is pushed (line 169), rendering it raises (line 170), and the
    [catch] block pushes the error text as well. *)
Lemma handleChatSubmit_settle_answer_not_string r fields w s :
  ok r = true ->
  body r = JsonObject fields ->
  is_string (get_field fields "answer") = false ->
  allSessions w !! propkey (currentSessionId w) = Some s ->
  exists w',
    handleChatSubmit_settle p (Resolved r) w = (Normal tt, w') /\
    allSessions w'
    = <[ propkey (currentSessionId w) :=
           {| title := title s;
              messages := messages s ++
                [ bot_says (get_field fields "answer");
                  error_text (err_message (render_error (get_field fields "answer"))) ] |} ]>
        (allSessions w).
Proof.
  intros Hok Hbody Hv Hs.
  destruct (handleChatSubmit_settle_appends (Resolved r) w s Hs) as (w' & Hrun & Hall & _).
  exists w'. split; [exact Hrun|]. rewrite Hall.
  cbn [settle_messages]. unfold reply_messages. by rewrite Hbody, Hok, Hv.
Qed.

End ChatSubmission.

Section ActiveIdInvariant.

(** Writing a session under some key and keeping the active id keeps the
    active id valid. *)
Lemma active_valid_insert w w' k s :
  active_valid w ->
  allSessions w' = <[ k := s ]> (allSessions w) ->
  currentSessionId w' = currentSessionId w ->
  active_valid w'.
Proof.
  intros (id & Hc & Hs) Ha Hc'. exists id. rewrite Hc', Ha. split; [exact Hc|].
  apply lookup_insert_is_Some. destruct (decide (k = id)); eauto.
Qed.

Lemma active_valid_same w w' :
  active_valid w ->
  allSessions w' = allSessions w ->
  currentSessionId w' = currentSessionId w ->
  active_valid w'.
Proof. intros (id & Hc & Hs) Ha Hc'. exists id. by rewrite Hc', Ha. Qed.

Lemma active_valid_lookup w :
  active_valid w -> exists s, allSessions w !! propkey (currentSessionId w) = Some s.
Proof. intros (id & Hc & s & Hs). exists s. by rewrite Hc. Qed.

Lemma exportChat_sessions stamp w :
  allSessions (snd (exportChat stamp w)) = allSessions w /\
  currentSessionId (snd (exportChat stamp w)) = currentSessionId w.
Proof.
  unfold exportChat, showNotification. js_simpl.
  destruct (allSessions w !! propkey (currentSessionId w)) as [s|].
  - by destruct (decide (length (messages s) = 0%nat)).
  - destruct (inherited (builtins w) (propkey (currentSessionId w))) as [b|]; [|done].
    by destruct (builtin_messages (builtins w) b) as [[|m l]|].
Qed.

Lemma xhr_complete_sessions e w :
  allSessions (snd (xhr_complete e w)) = allSessions w /\
  currentSessionId (snd (xhr_complete e w)) = currentSessionId w.
Proof.
  destruct e as [st txt|]; [|done].
  unfold xhr_complete, xhr_onload, JSON_parse, read_prop, showNotification. js_simpl.
  destruct (decide (st = 200%Z)); by destruct txt.
Qed.

(** With a valid active id, a submission never ends by an error. *)
Lemma handleChatSubmit_start_valid w :
  active_valid w ->
  returns (handleChatSubmit_start w) /\ active_valid (snd (handleChatSubmit_start w)).
Proof.
  intros Hv. destruct (active_valid_lookup w Hv) as (s & Hs).
  destruct (trim (userInput w)) as [|c t] eqn:Ht.
  - unfold handleChatSubmit_start, returns. js_simpl. by rewrite Ht.
  - destruct (handleChatSubmit_start_sends w s c t Hs Ht) as (p & w1 & Hrun & _ & Ha & Hc & _).
    unfold returns. rewrite Hrun. split; [exact I|]. by eapply active_valid_insert.
Qed.

(** Nor does its continuation, whatever the reply. *)
Lemma handleChatSubmit_settle_valid p f w :
  active_valid w ->
  returns (handleChatSubmit_settle p f w) /\ active_valid (snd (handleChatSubmit_settle p f w)).
Proof.
  intros Hv. destruct (active_valid_lookup w Hv) as (s & Hs).
  destruct (handleChatSubmit_settle_appends p f w s Hs) as (w' & Hrun & Ha & Hc & _).
  unfold returns. rewrite Hrun. split; [exact I|]. by eapply active_valid_insert.
Qed.

(** Every listener keeps the active id valid, a click on the session list
    included as long as it passes a listed id. *)
Lemma dispatch_active_valid ev w :
  active_valid w ->
  click_listed ev w ->
  active_valid (snd (dispatch ev w)).
Proof.
  intros Hv Hclick. destruct (active_valid_lookup w Hv) as (s & Hs).
  destruct ev as [|id| |stamp|v| |p f|p r|file|c l t|e]; cbn [dispatch click_listed] in *.
  - destruct (createNewSession_result w) as (w' & -> & Ha & Hc & _). cbn [snd].
    exists (next_session_id w). split; [exact Hc|]. rewrite Ha, lookup_insert_eq. eauto.
  - by apply switchSession_valid_iff.
  - destruct (clearChat_result w s Hs) as (w' & -> & Ha & Hc & _).
    by eapply active_valid_insert.
  - destruct (exportChat_sessions stamp w). by eapply active_valid_same.
  - exact Hv.
  - js_simpl. pose proof (handleChatSubmit_start_valid w Hv) as [_ H].
    by destruct (handleChatSubmit_start w) as [[o|e] w'].
  - js_simpl. destruct f as [e|r]; cbn [handleChatSubmit_fetched]; js_simpl.
    + destruct (handleChatSubmit_catch_appends p e w s Hs) as (w' & -> & Ha & Hc & _).
      by eapply active_valid_insert.
    + exact Hv.
  - destruct (handleChatSubmit_body_appends p r w s Hs) as (w' & -> & Ha & Hc & _).
    by eapply active_valid_insert.
  - by destruct file.
  - by destruct c.
  - destruct (xhr_complete_sessions e w). by eapply active_valid_same.
Qed.

(** The invariant of the repository: from a state whose active id is
    valid, no run of events whose clicks pass listed ids leads to a state
    whose active id is not. *)
Lemma run_events_active_valid evs : forall w,
  active_valid w -> clicks_listed evs w -> active_valid (run_events evs w).
Proof.
  induction evs as [|ev evs IH]; intros w Hv Hl; cbn in *; [exact Hv|].
  destruct Hl as [Hev Hl]. apply IH; [by apply dispatch_active_valid|exact Hl].
Qed.

(** [init] on a first visit ends in such a state; see [init_from_empty]. *)
Lemma started_active_valid : active_valid started.
Proof. exists "session-1000". split; vm_compute; eauto. Qed.

End ActiveIdInvariant.

Section SaveAndLoad.

(** What [saveSessions] wrote, the two reads of [loadSessions] give back:
    the same mapping, and the active id as the text it was stored as. *)
Lemma loadSessions_read_after_save w :
  exists w',
    loadSessions_read (snd (saveSessions w)) = (Normal tt, w') /\
    allSessions w' = allSessions w /\
    currentSessionId w' = Some (propkey (currentSessionId w)).
Proof. eexists. split; [reflexivity|]. by split. Qed.

End SaveAndLoad.

Section ReplyAndActiveSession.

(** C1, as the code has it.  A submission with a non-blank text pushes one
    user message on the session active at submission time and issues one
    request.  When the reply is a 2xx with a string [answer], one bot
    message holding it is pushed on the session that is active when the
    body has been read, whatever ran while the request was in flight
    ([evs1] before [fetch] resolved, [evs2] before the body was read).
    When at that time the active session is the session of the submission,
    and holds what the submission left in it, it then ends with the user
    message followed by the bot message; so it does in particular when
    nothing ran in between.  (A clear or another submission in between
    leaves the active id as it was and changes what the session holds: the
    bot message then follows whatever they left.) *)
Theorem handleChatSubmit_reply_to_active_at_completion
    (w : World) (id0 : string) (s0 : Session) (evs1 evs2 : list Event)
    (r : Response) (fields : gmap string jsval) (a : string) :
  currentSessionId w = Some id0 ->
  allSessions w !! id0 = Some s0 ->
  trim (userInput w) <> EmptyString ->
  ok r = true ->
  body r = JsonObject fields ->
  fields !! "answer" = Some (JStr a) ->
  exists p w1,
    handleChatSubmit_start w = (Normal (Some p), w1) /\
    allSessions w1
    = <[ id0 := pushed s0 {| sender := user; text := JStr (trim (userInput w)) |} ]>
        (allSessions w) /\
    requests w1 = requests w ++ [trim (userInput w)] /\
    (forall id1 s1,
       let w2 := run_events evs2
                   (snd (handleChatSubmit_fetched p (Resolved r) (run_events evs1 w1))) in
       currentSessionId w2 = Some id1 ->
       allSessions w2 !! id1 = Some s1 ->
       exists w3,
         handleChatSubmit_body p r w2 = (Normal tt, w3) /\
         allSessions w3
         = <[ id1 := pushed s1 {| sender := bot; text := JStr a |} ]> (allSessions w2)) /\
    (let w2 := run_events evs2
                 (snd (handleChatSubmit_fetched p (Resolved r) (run_events evs1 w1))) in
     currentSessionId w2 = Some id0 ->
     allSessions w2 !! id0 = allSessions w1 !! id0 ->
     exists w3,
       handleChatSubmit_body p r w2 = (Normal tt, w3) /\
       allSessions w3 !! id0
       = Some {| title := title s0;
                 messages := messages s0 ++
                   [ {| sender := user; text := JStr (trim (userInput w)) |};
                     {| sender := bot; text := JStr a |} ] |}) /\
    (exists w3,
       handleChatSubmit_settle p (Resolved r) w1 = (Normal tt, w3) /\
       allSessions w3
       = <[ id0 := {| title := title s0;
                      messages := messages s0 ++
                        [ {| sender := user; text := JStr (trim (userInput w)) |};
                          {| sender := bot; text := JStr a |} ] |} ]> (allSessions w)).
Proof.
  intros Hcur Hs0 Htrim Hok Hbody Ha.
  destruct (trim (userInput w)) as [|c t] eqn:Ht; [done|].
  destruct (handleChatSubmit_start_sends w s0 c t) as (p & w1 & Hstart & _ & Hall & Hc1 & Hreq & _);
    [by rewrite Hcur|done|].
  rewrite Hcur in Hall, Hc1. cbn [propkey] in Hall.
  exists p, w1. split; [exact Hstart|]. split; [exact Hall|]. split; [exact Hreq|].
  split; [|split].
  - intros id1 s1 w2 Hc2 Hs1.
    destruct (handleChatSubmit_body_answer p r fields a w2 s1 Hok Hbody Ha)
      as (w3 & Hrun & Hall3 & _); [by rewrite Hc2|].
    rewrite Hc2 in Hall3. eauto.
  - intros w2 Hc2 Hsame.
    rewrite Hall, lookup_insert_eq in Hsame.
    destruct (handleChatSubmit_body_answer p r fields a w2
                (pushed s0 {| sender := user; text := JStr (String c t) |}) Hok Hbody Ha)
      as (w3 & Hrun & Hall3 & _); [rewrite Hc2; exact Hsame|].
    exists w3. split; [exact Hrun|]. rewrite Hall3, Hc2. cbn [propkey].
    rewrite lookup_insert_eq. unfold pushed, bot_says. cbn. by rewrite <- app_assoc.
  - unfold handleChatSubmit_settle. js_simpl.
    rewrite handleChatSubmit_fetched_resolved. cbv beta iota.
    set (w2 := set_chatHistory _ w1).
    destruct (handleChatSubmit_body_answer p r fields a w2
                (pushed s0 {| sender := user; text := JStr (String c t) |}) Hok Hbody Ha)
      as (w3 & Hrun & Hall3 & _).
    { subst w2. cbn. rewrite Hc1, Hall. apply lookup_insert_eq. }
    exists w3. split; [exact Hrun|]. rewrite Hall3. subst w2. cbn.
    rewrite Hc1, Hall. cbn. rewrite insert_insert_eq. unfold pushed. cbn.
    by rewrite <- app_assoc.
Qed.

Lemma handleChatSubmit_reply_to_active_at_completion_witness :
  currentSessionId (set_userInput question two_chats) = Some "session-1003" /\
  trim (userInput (set_userInput question two_chats)) <> EmptyString /\
  ok reply_answer = true /\
  (exists w3,
     handleChatSubmit_settle in_flight_pending (Resolved reply_answer) in_flight
     = (Normal tt, w3) /\
     allSessions w3
     = <[ "session-1003" :=
            {| title := "Chat 2";
               messages := [greeting] ++
                 [ {| sender := user; text := JStr question |};
                   {| sender := bot; text := JStr "X is Y" |} ] |} ]>
         (allSessions (set_userInput question two_chats))) /\
  (let w2 := snd (handleChatSubmit_fetched in_flight_pending (Resolved reply_answer)
                    switched_away) in
   exists w3,
     handleChatSubmit_body in_flight_pending reply_answer w2 = (Normal tt, w3) /\
     allSessions w3
     = <[ "session-1000" :=
            pushed {| title := "Chat 1"; messages := [greeting] |}
              {| sender := bot; text := JStr "X is Y" |} ]> (allSessions w2)).
Proof.
  split; [vm_compute; reflexivity|].
  split; [vm_compute; discriminate|].
  split; [reflexivity|].
  destruct (handleChatSubmit_reply_to_active_at_completion
              (set_userInput question two_chats) "session-1003"
              {| title := "Chat 2"; messages := [greeting] |}
              [SessionClick "session-1000"] []
              reply_answer {[ "answer" := JStr "X is Y" ]} "X is Y")
    as (p & w1 & Hstart & _ & _ & Hbody & _ & Hsettle).
  - vm_compute; reflexivity.
  - vm_compute; reflexivity.
  - vm_compute; discriminate.
  - reflexivity.
  - reflexivity.
  - vm_compute; reflexivity.
  - assert (Hw1 : w1 = in_flight) by (unfold in_flight, submitted; by rewrite Hstart).
    assert (Hp : p = in_flight_pending)
      by (unfold in_flight_pending, submitted; by rewrite Hstart).
    subst w1 p. split; [exact Hsettle|].
    apply (Hbody "session-1000" {| title := "Chat 1"; messages := [greeting] |});
      vm_compute; reflexivity.
Defined.

(** The session of the submission is active again when the reply arrives
    (the user went to [session-1000] and came back) and holds what the
    submission left: the reply follows the question. *)
Example reply_after_switch_and_back :
  messages <$>
    allSessions
      (snd (handleChatSubmit_settle in_flight_pending (Resolved reply_answer)
              (run_events [SessionClick "session-1000"; SessionClick "session-1003"] in_flight)))
      !! "session-1003"
  = Some [greeting; {| sender := user; text := JStr "What is X?" |};
          {| sender := bot; text := JStr "X is Y" |}].
Proof. vm_compute. reflexivity. Qed.

(** The active session is the same when the reply arrives, but the user has
    cleared it in between: the reply follows the greeting, not the
    question. *)
Example reply_after_clear :
  currentSessionId (run_events [ClearClick] in_flight) = currentSessionId in_flight /\
  messages <$>
    allSessions
      (snd (handleChatSubmit_settle in_flight_pending (Resolved reply_answer)
              (run_events [ClearClick] in_flight)))
      !! "session-1003"
  = Some [greeting; {| sender := bot; text := JStr "X is Y" |}].
Proof. vm_compute. split; reflexivity. Qed.

(** C1 fails as stated: the question is submitted while [session-1003] is
    active, the user clicks on [session-1000] while the request is in
    flight, and the 2xx reply with the answer arrives.  The user message is
    in [session-1003], where it was submitted; the bot message is in
    [session-1000], the session active at completion. *)
Lemma reply_after_switch_lands_in_other_session :
  currentSessionId (set_userInput question two_chats) = Some "session-1003" /\
  fst submitted = Normal (Some in_flight_pending) /\
  currentSessionId switched_away = Some "session-1000" /\
  fst answered_after_switch = Normal tt /\
  messages <$> allSessions (snd answered_after_switch) !! "session-1003"
  = Some [greeting; {| sender := user; text := JStr "What is X?" |}] /\
  messages <$> allSessions (snd answered_after_switch) !! "session-1000"
  = Some [greeting; {| sender := bot; text := JStr "X is Y" |}].
Proof. vm_compute. repeat split. Qed.

End ReplyAndActiveSession.

Section FailingReply.

(** The scenario of the specification: one session holding the greeting,
    the question, the answer. *)
Example answer_scenario :
  messages <$>
    allSessions (snd (handleChatSubmit_settle asked_pending (Resolved reply_answer) (snd asked)))
      !! "session-1000"
  = Some [greeting; {| sender := user; text := JStr "What is X?" |};
          {| sender := bot; text := JStr "X is Y" |}].
Proof. vm_compute. reflexivity. Qed.

(** HTTP 500 with a detail. *)
Example index_unavailable_scenario :
  messages <$>
    allSessions (snd (handleChatSubmit_settle asked_pending
                        (Resolved reply_index_unavailable) (snd asked)))
      !! "session-1000"
  = Some [greeting; {| sender := user; text := JStr "What is X?" |};
          {| sender := bot; text := JStr "Error: index unavailable" |}].
Proof. vm_compute. reflexivity. Qed.

(** C4, at the failing input: HTTP 200 with the parsable body [{}].  The
    handler returns, and two bot messages have been pushed after the
    question: one whose text is [undefined], then the error text of the
    rendering failure. *)
Theorem handleChatSubmit_missing_answer_pushes_twice :
  fst asked = Normal (Some asked_pending) /\
  fst (handleChatSubmit_settle asked_pending (Resolved reply_without_answer) (snd asked))
  = Normal tt /\
  messages <$>
    allSessions (snd (handleChatSubmit_settle asked_pending
                        (Resolved reply_without_answer) (snd asked)))
      !! "session-1000"
  = Some [greeting;
          {| sender := user; text := JStr "What is X?" |};
          {| sender := bot; text := JUndefined |};
          {| sender := bot;
             text := JStr "Error: Cannot read properties of undefined (reading 'replace')" |}].
Proof. vm_compute. repeat split. Qed.

(** What that first message costs later: the store now holds a message
    without text, and the next [init] raises while rendering it. *)
Example reopened_after_missing_answer :
  init (reopened (snd (handleChatSubmit_settle asked_pending
                         (Resolved reply_without_answer) (snd asked))))
  = (Throw (cannot_read "undefined" "replace"),
     snd (init (reopened (snd (handleChatSubmit_settle asked_pending
                                 (Resolved reply_without_answer) (snd asked)))))).
Proof. vm_compute. reflexivity. Qed.

End FailingReply.

Section ExportChat.

Lemma append_assoc (a b c : string) : (a +:+ b) +:+ c = a +:+ (b +:+ c).
Proof.
  induction a as [|x a IH]; [reflexivity|].
  change ((String x a +:+ b) +:+ c) with (String x ((a +:+ b) +:+ c)).
  change (String x a +:+ (b +:+ c)) with (String x (a +:+ (b +:+ c))).
  by f_equal.
Qed.

Lemma append_empty_r (a : string) : a +:+ EmptyString = a.
Proof.
  induction a as [|x a IH]; [reflexivity|].
  change (String x a +:+ EmptyString) with (String x (a +:+ EmptyString)).
  by f_equal.
Qed.

Lemma export_step_line acc m : export_step acc m = acc +:+ export_line m.
Proof. unfold export_step, export_line. by destruct (sender m). Qed.

(** The loop of lines 223-226 appends the lines of the messages in order. *)
Lemma export_fold msgs : forall header,
  fold_left export_step msgs header = header +:+ transcript msgs.
Proof.
  induction msgs as [|m msgs IH]; intros header; cbn [fold_left transcript].
  - by rewrite append_empty_r.
  - by rewrite IH, export_step_line, append_assoc.
Qed.

(** C6: with an active session, [exportChat()] returns.  When the session
    has no message, the only change is the failure notification; no file is
    produced and sessions and store are what they were.  Otherwise the only
    change is one download, whose text is the header followed by the line
    of every message in order, each line being the label of the sender,
    [[You]: ] for the user and [[AI Assistant]: ] otherwise, and the text. *)
Theorem exportChat_active (w : World) (id : string) (s : Session) (stamp : string) :
  currentSessionId w = Some id ->
  allSessions w !! id = Some s ->
  exportChat stamp w
  = (Normal tt,
     match messages s with
     | [] => set_notifications (notifications w ++ [(JStr "Nothing to export.", true)]) w
     | _ :: _ =>
         set_downloads
           (downloads w ++
              [("chat-session-" +:+ dash_spaces false (title s) +:+ ".txt",
                ("Chat Session: " +:+ title s +:+ nl +:+
                 "Exported on: " +:+ stamp +:+ nl +:+ nl) +:+ transcript (messages s))]) w
     end).
Proof.
  intros Hcur Hs. unfold exportChat, showNotification. js_simpl.
  rewrite Hcur. cbn [propkey]. rewrite Hs.
  destruct (messages s) as [|m msgs] eqn:Hm; [reflexivity|].
  rewrite decide_False by discriminate. by rewrite export_fold.
Qed.

Lemma exportChat_active_witness :
  exportChat "01/11/2026, 10:00:00" emptied
  = (Normal tt,
     set_notifications (notifications emptied ++ [(JStr "Nothing to export.", true)]) emptied)
  /\
  downloads (snd (exportChat "01/11/2026, 10:00:00" answered))
  = [("chat-session-Chat-1.txt",
      "Chat Session: Chat 1" +:+ nl +:+ "Exported on: 01/11/2026, 10:00:00" +:+ nl +:+ nl +:+
      "[AI Assistant]: Hello! Ask me anything about the knowledge base." +:+ nl +:+
      "[You]: What is X?" +:+ nl +:+
      "[AI Assistant]: X is Y" +:+ nl)].
Proof.
  split.
  - apply (exportChat_active emptied "session-1000" {| title := "Chat 1"; messages := [] |});
      vm_compute; reflexivity.
  - rewrite (exportChat_active answered "session-1000"
               {| title := "Chat 1";
                  messages := [greeting; {| sender := user; text := JStr "What is X?" |};
                               {| sender := bot; text := JStr "X is Y" |}] |});
      vm_compute; reflexivity.
Defined.

End ExportChat.

Section Upload.

(** C8, as the code has it: what a failed upload signals.  A connection
    error signals the generic message; a status other than 200 whose body
    parses to an object signals the value of its [detail]; in both cases
    exactly one notification, flagged as an error.  A status other than 200
    whose body does not parse (or parses to null) signals nothing: the
    error of [JSON.parse] (or of the property read) leaves the [onload]
    callback.  The progress bar is reset in every case. *)
Theorem xhr_complete_failed (e : UploadEnd) (w : World) :
  upload_failed e ->
  xhr_complete e w
  = match e with
    | ConnectionError =>
        (Normal tt,
         set_uploadProgressBar WidthZero
           (set_notifications
              (notifications w ++ [(JStr "Upload failed. Connection error.", true)]) w))
    | Loaded _ (JsonObject fields) =>
        (Normal tt,
         set_notifications (notifications w ++ [(get_field fields "detail", true)])
           (set_uploadProgressBar WidthZero w))
    | Loaded _ (JsonMalformed msg) =>
        (Throw (Thrown SyntaxError msg), set_uploadProgressBar WidthZero w)
    | Loaded _ JsonNull =>
        (Throw (cannot_read "null" "detail"), set_uploadProgressBar WidthZero w)
    end.
Proof.
  destruct e as [st txt|]; cbn [upload_failed xhr_complete]; [|reflexivity].
  intros Hst. unfold xhr_onload, JSON_parse, read_prop, showNotification. js_simpl.
  rewrite decide_False by exact Hst. by destruct txt.
Qed.

Lemma xhr_complete_failed_witness :
  upload_failed bad_request /\
  xhr_complete bad_request started
  = (Normal tt,
     set_notifications
       (notifications started ++ [(JStr "Only PDF files are accepted.", true)])
       (set_uploadProgressBar WidthZero started)).
Proof.
  split; [vm_compute; discriminate|].
  rewrite (xhr_complete_failed bad_request started) by (vm_compute; discriminate).
  reflexivity.
Defined.

(** C8 fails as stated: HTTP 502 with an HTML body is a failed upload, the
    body does not parse, and the callback ends by the [SyntaxError] without
    any notification. *)
Lemma xhr_unparsable_failure_is_silent :
  upload_failed bad_gateway /\
  xhr_complete bad_gateway started
  = (Throw (Thrown SyntaxError "Unexpected token < in JSON at position 0"),
     set_uploadProgressBar WidthZero started) /\
  notifications (snd (xhr_complete bad_gateway started)) = notifications started /\
  notifications started = [].
Proof.
  split; [vm_compute; discriminate|].
  split; [reflexivity|].
  split; vm_compute; reflexivity.
Qed.

(** Status 200 is the only status read as a success. *)
Lemma xhr_onload_success w fields :
  xhr_onload 200 (JsonObject fields) w
  = (Normal tt,
     set_notifications (notifications w ++ [(get_field fields "message", false)])
       (set_uploadProgressBar WidthZero w)).
Proof. reflexivity. Qed.

End Upload.

(** * Further properties *)

(** Lay two worlds built by field updates down to their fields. *)
Ltac world_eq :=
  unfold set_allSessions, set_currentSessionId, set_ls_chatSessions,
    set_ls_currentSessionId, set_chatHistory, set_userInput, set_notifications,
    set_requests, set_uploads, set_downloads, set_uploadProgressBar, set_builtins,
    set_date_reads;
  cbn [allSessions currentSessionId ls_chatSessions ls_currentSessionId chatHistory
       userInput notifications requests uploads downloads uploadProgressBar
       builtins date_now date_reads].

Section Rendering.

Lemma addMessageToUI_text sndr s w :
  addMessageToUI sndr (JStr s) w
  = (Normal ("msg-" +:+ pretty (date_now w (date_reads w))),
     set_chatHistory
       (chatHistory w ++ [{| div_id := "msg-" +:+ pretty (date_now w (date_reads w));
                             div_sender := sndr; div_bubble := bubble_of s |}])
       (set_date_reads (S (date_reads w)) w)).
Proof.
  unfold addMessageToUI, Date_now, bubble_of. js_simpl.
  destruct (decide (s = "typing...")) as [->|Hs].
  - by rewrite decide_True.
  - by rewrite decide_False by congruence.
Qed.

(** The loop of line 136 from any page: the messages are rendered in order
    up to the first one whose text is not a string, where it raises. *)
Lemma forEach_render msgs : forall w,
  forEach (fun msg => addMessageToUI (sender msg) (text msg) ;; mret tt) msgs w
  = (render_completion msgs,
     set_chatHistory (chatHistory w ++ rendered (date_now w) (date_reads w) (shown msgs))
       (set_date_reads (date_reads w + render_reads msgs) w)).
Proof.
  unfold render_completion, render_reads.
  induction msgs as [|m msgs IH]; intros w; cbn [forEach shown first_unshown rendered].
  - js_simpl. rewrite app_nil_r, Nat.add_0_r. by destruct w.
  - js_simpl. destruct (text m) as [| |b|s] eqn:Ht; cbn [is_string].
    4: { rewrite addMessageToUI_text. cbv beta iota. rewrite IH.
         destruct (first_unshown msgs); destruct w; world_eq; cbn; rewrite Ht; cbn;
           rewrite <- app_assoc; cbn; do 2 f_equal; lia. }
    all: rewrite addMessageToUI_not_string by reflexivity; cbv beta iota.
    all: cbn [rendered length]; rewrite app_nil_r, Ht.
    all: destruct w; world_eq; do 2 f_equal; lia.
Qed.

Lemma loadChatHistory_result (w : World) (s : Session) :
  allSessions w !! propkey (currentSessionId w) = Some s ->
  loadChatHistory w
  = (render_completion (messages s),
     set_chatHistory (rendered (date_now w) (date_reads w) (shown (messages s)))
       (set_date_reads (date_reads w + render_reads (messages s)) w)).
Proof.
  intros Hs. unfold loadChatHistory. js_simpl. cbn [allSessions currentSessionId set_chatHistory].
  rewrite Hs, forEach_render. by destruct w.
Qed.

Lemma first_unshown_none msgs :
  first_unshown msgs = None -> shown msgs = msgs.
Proof.
  induction msgs as [|m msgs IH]; cbn; [done|].
  destruct (is_string (text m)); [|done]. intros H. by rewrite IH.
Qed.

(** X1: [loadChatHistory()] empties the chat history and renders the
    messages of whatever [allSessions[currentSessionId]] yields, in order, up
    to the first message whose text is not a string; it returns when there
    is no such message and raises the rendering error of that message
    otherwise, the later messages not being shown.  A message whose text is
    [typing...] is shown as the typing indicator.  When the active id is a
    key, the messages are those of its session.  When it is neither a key
    nor the name of an inherited property, nothing is rendered and the call
    returns.  When it names an inherited property ([constructor], ...), the
    object found has no [messages] unless [clearChat] assigned them: the call
    raises a [TypeError] at [forEach], the history left empty. *)
Theorem loadChatHistory_shows_messages (w : World) :
  loadChatHistory w
  = match allSessions w !! propkey (currentSessionId w) with
    | Some s =>
        (render_completion (messages s),
         set_chatHistory (rendered (date_now w) (date_reads w) (shown (messages s)))
           (set_date_reads (date_reads w + render_reads (messages s)) w))
    | None =>
        match inherited (builtins w) (propkey (currentSessionId w)) with
        | None => (Normal tt, set_chatHistory [] w)
        | Some b =>
            match builtin_messages (builtins w) b with
            | None => (Throw (cannot_read "undefined" "forEach"), set_chatHistory [] w)
            | Some msgs =>
                (render_completion msgs,
                 set_chatHistory (rendered (date_now w) (date_reads w) (shown msgs))
                   (set_date_reads (date_reads w + render_reads msgs) w))
            end
        end
    end.
Proof.
  destruct (allSessions w !! propkey (currentSessionId w)) as [s|] eqn:Hs.
  - by apply loadChatHistory_result.
  - destruct (inherited (builtins w) (propkey (currentSessionId w))) as [b|] eqn:Hb;
      [destruct (builtin_messages (builtins w) b) as [msgs|] eqn:Hm|].
    + unfold loadChatHistory. js_simpl.
      cbn [allSessions currentSessionId builtins set_chatHistory].
      rewrite Hs. cbn [allSessions currentSessionId builtins set_chatHistory].
      rewrite Hb, Hm, forEach_render. by destruct w.
    + by apply loadChatHistory_undefined_messages with (b := b).
    + unfold loadChatHistory. js_simpl.
      cbn [allSessions currentSessionId builtins set_chatHistory].
      rewrite Hs. cbn [allSessions currentSessionId builtins set_chatHistory].
      by rewrite Hb.
Qed.

(** X2: switching to a listed session other than the active one, all of
    whose texts are strings, returns; the history then shows one bubble per
    message of that session, in order, the id is stored, and the stored
    sessions are not rewritten. *)
Theorem switchSession_shows_session (w : World) (id : string) (s : Session) :
  currentSessionId w <> Some id ->
  allSessions w !! id = Some s ->
  first_unshown (messages s) = None ->
  switchSession id w
  = (Normal tt,
     set_ls_currentSessionId (Some id)
       (set_chatHistory (rendered (date_now w) (date_reads w) (messages s))
          (set_date_reads (date_reads w + length (messages s))
             (set_currentSessionId (Some id) w)))).
Proof.
  intros Hne Hs Hall.
  destruct (switchSession_other id w Hne) as (c & w1 & Hload & ->).
  rewrite (loadChatHistory_result _ s) in Hload by exact Hs.
  unfold render_completion, render_reads in Hload.
  rewrite Hall, (first_unshown_none _ Hall) in Hload.
  injection Hload as <- <-. by destruct w.
Qed.

Lemma switchSession_shows_session_witness :
  currentSessionId two_chats <> Some "session-1000" /\
  switchSession "session-1000" two_chats
  = (Normal tt,
     set_ls_currentSessionId (Some "session-1000")
       (set_chatHistory (rendered (date_now two_chats) (date_reads two_chats) [greeting])
          (set_date_reads (date_reads two_chats + 1)
             (set_currentSessionId (Some "session-1000") two_chats)))).
Proof.
  split; [vm_compute; discriminate|].
  apply (switchSession_shows_session two_chats "session-1000"
           {| title := "Chat 1"; messages := [greeting] |}).
  - vm_compute; discriminate.
  - vm_compute; reflexivity.
  - reflexivity.
Defined.


End Rendering.

Section Persistence.

Ltac render_text := rewrite addMessageToUI_text; cbv beta iota.

Lemma saveSessions_synced w : synced (snd (saveSessions w)).
Proof. by split. Qed.

Lemma createNewSession_synced w : synced (snd (createNewSession w)).
Proof.
  destruct (createNewSession_result w) as (w' & -> & _ & Hc & Hs & Hi & _).
  split; [exact Hs|]. cbn [snd]. by rewrite Hi, Hc.
Qed.

Lemma clearChat_synced w :
  synced w -> synced (snd (clearChat w)).
Proof.
  intros Hsync. unfold clearChat, saveSessions, showNotification. js_simpl.
  destruct (allSessions w !! propkey (currentSessionId w)) as [s|].
  - render_text. by split.
  - destruct (inherited (builtins w) (propkey (currentSessionId w))) as [b|]; [|exact Hsync].
    render_text. by split.
Qed.

Lemma handleChatSubmit_start_synced w :
  synced w -> active_valid w -> synced (snd (handleChatSubmit_start w)).
Proof.
  intros Hsync Hv. destruct (active_valid_lookup w Hv) as (s & Hs).
  unfold handleChatSubmit_start. js_simpl.
  destruct (trim (userInput w)) as [|c t]; [exact Hsync|].
  rewrite (push_message_active _ w s Hs). render_text.
  unfold saveSessions. js_simpl. render_text. by split.
Qed.

Lemma handleChatSubmit_catch_synced p e w :
  active_valid w -> synced (snd (handleChatSubmit_catch p e w)).
Proof.
  intros Hv. destruct (active_valid_lookup w Hv) as (s & Hs).
  unfold handleChatSubmit_catch, removeById. js_simpl.
  rewrite (push_message_active _ _ s) by exact Hs. render_text.
  unfold saveSessions. js_simpl. by split.
Qed.

Lemma handleChatSubmit_body_synced p r w :
  active_valid w -> synced (snd (handleChatSubmit_body p r w)).
Proof.
  intros Hv. destruct (active_valid_lookup w Hv) as (s & Hs).
  unfold handleChatSubmit_body, response_json, read_prop. js_simpl.
  destruct (body r) as [msg| |fields]; destruct (ok r); cbv beta iota;
    try (by apply handleChatSubmit_catch_synced).
  rewrite (push_message_active _ w s Hs). cbv beta iota.
  destruct (get_field fields "answer") as [| |b|a] eqn:Hanswer.
  4: { render_text. unfold saveSessions. js_simpl. by split. }
  all: rewrite addMessageToUI_not_string by reflexivity; cbv beta iota.
  all: apply handleChatSubmit_catch_synced.
  all: destruct Hv as (id & Hc & _); exists id; split; [exact Hc|].
  all: cbn; rewrite Hc; cbn; rewrite lookup_insert_eq; eauto.
Qed.

Lemma switchSession_synced id w :
  synced w -> returns (switchSession id w) -> synced (snd (switchSession id w)).
Proof.
  intros [Hs Hi] Hret.
  destruct (decide (currentSessionId w = Some id)) as [Heq|Hne].
  - rewrite switchSession_same by exact Heq. by split.
  - destruct (switchSession_other id w Hne) as (c & w1 & Hload & Hrun).
    rewrite Hrun in Hret |- *.
    pose proof (loadChatHistory_frame (set_currentSessionId (Some id) w)) as Hf.
    rewrite Hload in Hf. cbn [snd] in Hf. destruct Hf as (Ha & Hc & Hl & _).
    destruct c as [[]|e]; [|by destruct Hret].
    split; cbn; [by rewrite Hl, Ha|by rewrite Hc].
Qed.

Lemma exportChat_store stamp w :
  ls_chatSessions (snd (exportChat stamp w)) = ls_chatSessions w /\
  ls_currentSessionId (snd (exportChat stamp w)) = ls_currentSessionId w.
Proof.
  unfold exportChat, showNotification. js_simpl.
  destruct (allSessions w !! propkey (currentSessionId w)) as [s|].
  - by destruct (decide (length (messages s) = 0%nat)).
  - destruct (inherited (builtins w) (propkey (currentSessionId w))) as [b|]; [|done].
    by destruct (builtin_messages (builtins w) b) as [[|m l]|].
Qed.

Lemma xhr_complete_store e w :
  ls_chatSessions (snd (xhr_complete e w)) = ls_chatSessions w /\
  ls_currentSessionId (snd (xhr_complete e w)) = ls_currentSessionId w.
Proof.
  destruct e as [st txt|]; [|done].
  unfold xhr_complete, xhr_onload, JSON_parse, read_prop, showNotification. js_simpl.
  destruct (decide (st = 200%Z)); by destruct txt.
Qed.

(** X4: every listener that returns leaves the store holding what the
    memory holds, when it found them so and the active id valid: each
    change of the sessions or of the active id is written to the store
    before the listener ends. *)
Theorem dispatch_keeps_synced (ev : Event) (w : World) :
  synced w ->
  active_valid w ->
  returns (dispatch ev w) ->
  synced (snd (dispatch ev w)).
Proof.
  intros Hsync Hv Hret.
  destruct ev as [|id| |stamp|v| |p f|p r|file|c l t|e]; cbn [dispatch] in *.
  - apply createNewSession_synced.
  - by apply switchSession_synced.
  - by apply clearChat_synced.
  - destruct (exportChat_store stamp w) as [Hs Hi], (exportChat_sessions stamp w) as [Ha Hc].
    destruct Hsync. split; congruence.
  - exact Hsync.
  - js_simpl. pose proof (handleChatSubmit_start_synced w Hsync Hv) as H.
    by destruct (handleChatSubmit_start w) as [[o|e] w'].
  - js_simpl. destruct f as [e|r]; cbn [handleChatSubmit_fetched]; js_simpl.
    + pose proof (handleChatSubmit_catch_synced p e w Hv) as H.
      by destruct (handleChatSubmit_catch p e w) as [[[]|e'] w'].
    + exact Hsync.
  - by apply handleChatSubmit_body_synced.
  - by destruct file.
  - by destruct c.
  - destruct (xhr_complete_store e w) as [Hs Hi], (xhr_complete_sessions e w) as [Ha Hc].
    destruct Hsync. split; congruence.
Qed.

Lemma dispatch_keeps_synced_witness :
  synced started /\ active_valid started /\
  returns (dispatch NewChatClick started) /\
  synced (snd (dispatch NewChatClick started)).
Proof.
  assert (Hs : synced started) by (split; vm_compute; reflexivity).
  assert (Hv : active_valid started) by apply started_active_valid.
  assert (Hr : returns (dispatch NewChatClick started)) by (vm_compute; exact I).
  split; [exact Hs|]. split; [exact Hv|]. split; [exact Hr|].
  exact (dispatch_keeps_synced NewChatClick started Hs Hv Hr).
Defined.

(** X5: a page opened on the store of a page [w] whose store was in step
    with its memory, and whose active id is a non-empty key, gets the
    sessions and the active id of [w] back from [loadSessions()]; no session
    is created and the clock is not read. *)
Theorem loadSessions_restores (w w0 : World) (id : string) :
  synced w ->
  currentSessionId w = Some id ->
  id <> EmptyString ->
  is_Some (allSessions w !! id) ->
  ls_chatSessions w0 = ls_chatSessions w ->
  ls_currentSessionId w0 = ls_currentSessionId w ->
  loadSessions w0
  = (Normal tt, set_currentSessionId (Some id) (set_allSessions (allSessions w) w0)).
Proof.
  intros [Hs Hi] Hc Hid Hkey Hs0 Hi0.
  rewrite Hc in Hi. cbn [propkey] in Hi.
  rewrite (loadSessions_keeps w0 (allSessions w)).
  - by rewrite Hi0, Hi.
  - by rewrite Hs0, Hs.
  - rewrite Hi0, Hi. by destruct id.
  - by rewrite Hi0, Hi.
Qed.

Lemma loadSessions_restores_witness :
  synced two_chats /\
  currentSessionId two_chats = Some "session-1003" /\
  loadSessions (reopened two_chats)
  = (Normal tt,
     set_currentSessionId (Some "session-1003")
       (set_allSessions (allSessions two_chats) (reopened two_chats))).
Proof.
  assert (Hs : synced two_chats) by (split; vm_compute; reflexivity).
  split; [exact Hs|]. split; [vm_compute; reflexivity|].
  apply (loadSessions_restores two_chats (reopened two_chats) "session-1003" Hs).
  - vm_compute; reflexivity.
  - discriminate.
  - vm_compute; eauto.
  - reflexivity.
  - reflexivity.
Defined.

Lemma parse_stored_sessions w :
  (forall raw msg, ls_chatSessions w <> Malformed raw msg) ->
  parse_chatSessions (ls_chatSessions w) w = (Normal (stored_sessions (ls_chatSessions w)), w).
Proof.
  intros Hwell. destruct (ls_chatSessions w) as [|raw msg| |m] eqn:Hslot; try reflexivity.
  by destruct (Hwell raw msg).
Qed.

(** X6: when the sessions slot is absent or holds the text of a falsy JSON
    value or of a mapping of sessions, [loadSessions()] returns.  Afterwards
    the active id is a key of the sessions and the store holds what the
    memory holds, a stored id that is null, empty or unknown being replaced
    by the id of a session created on the spot, with one exception: a stored
    id that is not a key but the name of a property every object inherits
    ([constructor], [toString], ...) passes the test of line 93, so that no
    session is created and the active id names no session. *)
Theorem loadSessions_establishes_invariant (w : World) :
  (forall raw msg, ls_chatSessions w <> Malformed raw msg) ->
  returns (loadSessions w) /\
  (falsy_id (ls_currentSessionId w) = true \/
   is_Some (stored_sessions (ls_chatSessions w) !! propkey (ls_currentSessionId w)) \/
   inherited (builtins w) (propkey (ls_currentSessionId w)) = None ->
   active_valid (snd (loadSessions w)) /\ synced (snd (loadSessions w))) /\
  (falsy_id (ls_currentSessionId w) = false ->
   stored_sessions (ls_chatSessions w) !! propkey (ls_currentSessionId w) = None ->
   is_Some (inherited (builtins w) (propkey (ls_currentSessionId w))) ->
   loadSessions w
   = (Normal tt,
      set_currentSessionId (ls_currentSessionId w)
        (set_allSessions (stored_sessions (ls_chatSessions w)) w)) /\
   ~ active_valid (snd (loadSessions w))).
Proof.
  intros Hwell. pose proof (parse_stored_sessions w Hwell) as Hparse.
  set (m := stored_sessions (ls_chatSessions w)) in *.
  assert (Hcreate : falsy_id (ls_currentSessionId w) = true \/
            (m !! propkey (ls_currentSessionId w) = None /\
             inherited (builtins w) (propkey (ls_currentSessionId w)) = None) ->
            returns (loadSessions w) /\
            active_valid (snd (loadSessions w)) /\ synced (snd (loadSessions w))).
  { intros Hid. rewrite (loadSessions_creates w m Hparse Hid).
    set (w0 := set_currentSessionId _ _).
    destruct (createNewSession_result w0) as (w' & Hrun & Ha & Hc & _).
    pose proof (createNewSession_synced w0) as Hsync.
    unfold returns. rewrite Hrun in *. cbn [fst snd] in *.
    split; [exact I|]. split; [|exact Hsync].
    exists (next_session_id w0). split; [exact Hc|].
    rewrite Ha, lookup_insert_eq. eauto. }
  assert (Hkeep : falsy_id (ls_currentSessionId w) = false ->
            is_Some (m !! propkey (ls_currentSessionId w)) ->
            returns (loadSessions w) /\
            active_valid (snd (loadSessions w)) /\ synced (snd (loadSessions w))).
  { intros Hid [s Hs]. rewrite (loadSessions_keeps w m Hparse Hid) by eauto.
    unfold returns. cbn [fst snd]. split; [exact I|].
    destruct (ls_currentSessionId w) as [id|] eqn:Hi; [|discriminate].
    split; [exists id; cbn; eauto|].
    split; cbn; [|by rewrite Hi].
    subst m. destruct (ls_chatSessions w); cbn in Hs |- *;
      rewrite ?lookup_empty in Hs; done. }
  destruct (falsy_id (ls_currentSessionId w)) eqn:Hid;
    [|destruct (m !! propkey (ls_currentSessionId w)) as [s|] eqn:Hs;
      [|destruct (inherited (builtins w) (propkey (ls_currentSessionId w))) as [b|] eqn:Hb]].
  - destruct Hcreate as (H1 & H2 & H3); [by left|].
    split; [exact H1|]. split; [done|]. intros; discriminate.
  - destruct Hkeep as (H1 & H2 & H3); [done|eauto|].
    split; [exact H1|]. split; [done|]. intros; discriminate.
  - pose proof (loadSessions_keeps_inherited w m b Hparse Hid Hb) as Hload.
    assert (Hnot : ~ active_valid (snd (loadSessions w))).
    { rewrite Hload. cbn [snd]. intros (id & Hc & s & Hk). cbn in Hc, Hk.
      rewrite Hc in Hs. cbn in Hs. congruence. }
    split; [unfold returns; by rewrite Hload|]. split; [|done].
    intros [H|[[s H]|H]]; discriminate.
  - destruct Hcreate as (H1 & H2 & H3); [by right|].
    split; [exact H1|]. split; [done|]. intros _ _ [b Hb']. discriminate.
Qed.

Lemma loadSessions_establishes_invariant_witness :
  (returns (loadSessions (reopened (snd (switchSession "session-404" started)))) /\
   active_valid (snd (loadSessions (reopened (snd (switchSession "session-404" started))))) /\
   synced (snd (loadSessions (reopened (snd (switchSession "session-404" started)))))) /\
  (returns (loadSessions constructor_page) /\
   allSessions (snd (loadSessions constructor_page)) = ∅ /\
   currentSessionId (snd (loadSessions constructor_page)) = Some "constructor" /\
   ~ active_valid (snd (loadSessions constructor_page))).
Proof.
  split.
  - destruct (loadSessions_establishes_invariant
                (reopened (snd (switchSession "session-404" started)))) as (H1 & H2 & _).
    + intros raw msg. vm_compute. discriminate.
    + destruct H2 as [Hv Hs]; [right; right; vm_compute; reflexivity|]. by split.
  - destruct (loadSessions_establishes_invariant constructor_page) as (H1 & _ & H3).
    + intros raw msg. vm_compute. discriminate.
    + destruct H3 as [Hrun Hnot]; [reflexivity|vm_compute; reflexivity|vm_compute; eauto|].
      split; [exact H1|]. rewrite Hrun. by split.
Defined.

End Persistence.

Section Conversation.



(** What lines 142-159 leave on the page for a text that is not blank. *)
Lemma handleChatSubmit_start_page w s c t :
  allSessions w !! propkey (currentSessionId w) = Some s ->
  trim (userInput w) = String c t ->
  exists p w1,
    handleChatSubmit_start w = (Normal (Some p), w1) /\
    typingId p = "msg-" +:+ pretty (date_now w (S (date_reads w))) /\
    userText p = String c t /\
    userInput w1 = EmptyString /\
    chatHistory w1
    = chatHistory w ++
      [ {| div_id := "msg-" +:+ pretty (date_now w (date_reads w)); div_sender := user;
           div_bubble := bubble_of (String c t) |};
        {| div_id := "msg-" +:+ pretty (date_now w (S (date_reads w))); div_sender := bot;
           div_bubble := TypingIndicator |} ] /\
    synced w1 /\
    date_reads w1 = S (S (date_reads w)) /\
    notifications w1 = notifications w.
Proof.
  intros Hs Ht. unfold handleChatSubmit_start. js_simpl. rewrite Ht.
  rewrite (push_message_active _ w s Hs). rewrite addMessageToUI_text. cbv beta iota.
  unfold saveSessions. js_simpl. rewrite addMessageToUI_text. cbv beta iota.
  do 2 eexists. split; [reflexivity|]. cbn. rewrite <- app_assoc. by repeat split.
Qed.


(** X8: what a failed exchange writes in the transcript, the active session
    existing.  A rejected [fetch] gives one bot message, [Error: ] followed
    by the message of the rejection.  A status outside 2xx with a parsed
    body gives one bot message, [Error: ] followed by the [detail] of the
    body when it is truthy, and by [Failed to get response.] when it is
    missing, null, false or the empty string. *)
Theorem handleChatSubmit_error_text (p : Pending) (f : FetchResult) (w : World) (s : Session) :
  allSessions w !! propkey (currentSessionId w) = Some s ->
  match f with
  | Rejected e =>
      exists w',
        handleChatSubmit_settle p f w = (Normal tt, w') /\
        allSessions w' !! propkey (currentSessionId w)
        = Some (pushed s (bot_says (JStr ("Error: " +:+ err_message e))))
  | Resolved r =>
      ok r = false ->
      forall fields, body r = JsonObject fields ->
      exists w',
        handleChatSubmit_settle p f w = (Normal tt, w') /\
        allSessions w' !! propkey (currentSessionId w)
        = Some (pushed s (bot_says (JStr ("Error: " +:+
                  match get_field fields "detail" with
                  | JStr (String c d) => String c d
                  | JBool true => "true"
                  | _ => "Failed to get response."
                  end))))
  end.
Proof.
  intros Hs. destruct f as [e|r].
  - destruct (handleChatSubmit_settle_rejection p (Rejected e) (err_message e) w s)
      as (w' & Hrun & Ha & _); [done|exact Hs|].
    exists w'. split; [exact Hrun|]. by rewrite Ha, lookup_insert_eq.
  - intros Hok fields Hbody.
    destruct (handleChatSubmit_settle_rejection p (Resolved r)
                (ToString (js_or (get_field fields "detail") (JStr "Failed to get response.")))
                w s) as (w' & Hrun & Ha & _); [|exact Hs|].
    { cbn. by rewrite Hbody, Hok. }
    exists w'. split; [exact Hrun|]. rewrite Ha, lookup_insert_eq.
    unfold error_text. do 4 f_equal.
    by destruct (get_field fields "detail") as [| |[]|[|c d]].
Qed.

Lemma handleChatSubmit_error_text_witness :
  exists w',
    handleChatSubmit_settle asked_pending (Resolved reply_index_unavailable) (snd asked)
    = (Normal tt, w') /\
    allSessions w' !! "session-1000"
    = Some (pushed {| title := "Chat 1";
                      messages := [greeting; {| sender := user; text := JStr question |}] |}
              (bot_says (JStr "Error: index unavailable"))).
Proof.
  apply (handleChatSubmit_error_text asked_pending (Resolved reply_index_unavailable)
           (snd asked)
           {| title := "Chat 1";
              messages := [greeting; {| sender := user; text := JStr question |}] |}
           ltac:(vm_compute; reflexivity) ltac:(reflexivity)
           {[ "detail" := JStr "index unavailable" ]} ltac:(reflexivity)).
Defined.


Lemma trimStart_idem s : trimStart (trimStart s) = trimStart s.
Proof.
  induction s as [|c r IH]; cbn; [done|].
  destruct (is_white_space c) eqn:Hc; [exact IH|]. cbn. by rewrite Hc.
Qed.

Lemma trimEnd_head s c r :
  trimStart s = s -> trimEnd s = String c r -> is_white_space c = false.
Proof.
  destruct s as [|c' r']; cbn; [discriminate|].
  destruct (is_white_space c') eqn:Hc.
  - intros H. exfalso.
    assert (Hl : String.length (trimStart r') <= String.length r').
    { clear. induction r' as [|x r IH]; cbn; [lia|]. destruct (is_white_space x); cbn; lia. }
    rewrite H in Hl. cbn in Hl. lia.
  - intros _. destruct (trimEnd r'); by intros [= <- <-].
Qed.

Lemma trimEnd_idem s : trimEnd (trimEnd s) = trimEnd s.
Proof.
  induction s as [|c r IH]; cbn; [done|].
  destruct (trimEnd r) as [|c' r'] eqn:Hr.
  - destruct (is_white_space c) eqn:Hc; cbn; [done|]. by rewrite Hc.
  - cbn. cbn in IH. by rewrite IH.
Qed.

Lemma trimStart_trimEnd s : trimStart s = s -> trimStart (trimEnd s) = trimEnd s.
Proof.
  intros Hs. destruct (trimEnd s) as [|c r] eqn:He; [done|].
  cbn. by rewrite (trimEnd_head s c r Hs He).
Qed.

(** The last character of a string, if any. *)
Lemma trimEnd_last s a c :
  trimEnd s = a +:+ String c EmptyString -> is_white_space c = false.
Proof.
  revert a. induction s as [|x r IH]; intros a; cbn.
  - destruct a; discriminate.
  - destruct (trimEnd r) as [|c' r'] eqn:Hr.
    + destruct (is_white_space x) eqn:Hx; [destruct a; discriminate|].
      destruct a as [|y a]; cbn.
      * by intros [= <-].
      * intros [= _ H]. destruct a; discriminate.
    + destruct a as [|y a]; cbn; [discriminate|].
      intros [= _ H]. by apply (IH a).
Qed.

(** X9: the text a submission pushes and sends is the trimmed input: it
    neither starts nor ends with a white space character, trimming it again
    changes nothing, and it is what the user message, the query of the
    request and the pending record all hold; the text area is emptied, the
    store already holds the user message while the request is in flight, and
    the history shows the user's bubble followed by the typing indicator. *)
Theorem handleChatSubmit_sends_trimmed (w : World) (s : Session) :
  allSessions w !! propkey (currentSessionId w) = Some s ->
  trim (userInput w) <> EmptyString ->
  trim (trim (userInput w)) = trim (userInput w) /\
  (forall c r, trim (userInput w) = String c r -> is_white_space c = false) /\
  (forall a c, trim (userInput w) = a +:+ String c EmptyString -> is_white_space c = false) /\
  exists p w1,
    handleChatSubmit_start w = (Normal (Some p), w1) /\
    userText p = trim (userInput w) /\
    requests w1 = requests w ++ [trim (userInput w)] /\
    allSessions w1 !! propkey (currentSessionId w)
    = Some (pushed s {| sender := user; text := JStr (trim (userInput w)) |}) /\
    userInput w1 = EmptyString /\
    ls_chatSessions w1 = SessionsJson (allSessions w1) /\
    chatHistory w1
    = chatHistory w ++
      [ {| div_id := "msg-" +:+ pretty (date_now w (date_reads w)); div_sender := user;
           div_bubble := bubble_of (trim (userInput w)) |};
        {| div_id := "msg-" +:+ pretty (date_now w (S (date_reads w))); div_sender := bot;
           div_bubble := TypingIndicator |} ].
Proof.
  intros Hs Ht. split; [|split; [|split]].
  - unfold trim. rewrite trimStart_trimEnd by apply trimStart_idem. apply trimEnd_idem.
  - intros c r H. unfold trim in H. eapply trimEnd_head; [apply trimStart_idem|exact H].
  - intros a c H. unfold trim in H. by eapply trimEnd_last.
  - destruct (trim (userInput w)) as [|c t] eqn:Htrim; [done|].
    destruct (handleChatSubmit_start_page w s c t Hs Htrim)
      as (p & w1 & Hrun & _ & Hu & Hi & Hh & [Hsync _] & _).
    destruct (handleChatSubmit_start_sends w s c t Hs Htrim)
      as (p' & w1' & Hrun' & _ & Ha & _ & Hr & _).
    rewrite Hrun in Hrun'. injection Hrun' as <- <-.
    exists p, w1. rewrite Hsync, Ha, lookup_insert_eq. by repeat split.
Qed.

Lemma handleChatSubmit_sends_trimmed_witness :
  let w := set_userInput (blanks +:+ question +:+ blanks) started in
  exists p w1,
    handleChatSubmit_start w = (Normal (Some p), w1) /\
    userText p = question /\
    requests w1 = [question] /\
    userInput w1 = EmptyString.
Proof.
  destruct (handleChatSubmit_sends_trimmed
              (set_userInput (blanks +:+ question +:+ blanks) started)
              {| title := "Chat 1"; messages := [greeting] |})
    as (_ & _ & _ & p & w1 & Hrun & Hu & Hr & _ & Hi & _).
  - vm_compute; reflexivity.
  - vm_compute; discriminate.
  - exists p, w1. split; [exact Hrun|]. split; [exact Hu|]. split; [exact Hr|exact Hi].
Defined.

(** What the [catch] block and lines 163-179 do when the push raises. *)
Lemma handleChatSubmit_settle_dangling p f w e :
  push_error w = Some e ->
  fst (handleChatSubmit_settle p f w) = Throw e /\
  allSessions (snd (handleChatSubmit_settle p f w)) = allSessions w /\
  ls_chatSessions (snd (handleChatSubmit_settle p f w)) = ls_chatSessions w /\
  currentSessionId (snd (handleChatSubmit_settle p f w)) = currentSessionId w /\
  builtins (snd (handleChatSubmit_settle p f w)) = builtins w.
Proof.
  intros Hs.
  assert (Hcatch : forall e0 w0,
            push_error w0 = Some e ->
            handleChatSubmit_catch p e0 w0
            = (Throw e, set_chatHistory (remove_first_id (typingId p) (chatHistory w0)) w0)).
  { intros e0 w0 H0. unfold handleChatSubmit_catch, removeById. js_simpl.
    by rewrite (push_message_dangling _ _ e) by exact H0. }
  unfold handleChatSubmit_settle. destruct f as [e0|r].
  - unfold handleChatSubmit_fetched. js_simpl. by rewrite Hcatch.
  - js_simpl. rewrite handleChatSubmit_fetched_resolved. cbv beta iota.
    set (w0 := set_chatHistory _ w).
    assert (H0 : push_error w0 = Some e) by exact Hs.
    unfold handleChatSubmit_body, response_json, read_prop. js_simpl.
    destruct (body r) as [msg| |fields]; destruct (ok r); cbv beta iota;
      rewrite ?(push_message_dangling _ w0 e H0); cbv beta iota; by rewrite Hcatch.
Qed.

(** X10: when the push of line 146 has nothing to push on, a submission of
    a text that is not blank raises at once, before anything is pushed,
    stored or sent, and the end of a request in flight raises whatever the
    reply: the error leaves the handler and no session receives the answer
    or an error message.  That is the case when the active id is neither a
    key nor the name of an inherited property (the read of [messages] fails
    on [undefined]), and when it names an inherited property whose object
    bears no messages (the read of [push] fails). *)
Theorem handleChatSubmit_without_active_session (w : World) (e : JsError) :
  push_error w = Some e ->
  allSessions w !! propkey (currentSessionId w) = None /\
  e = match inherited (builtins w) (propkey (currentSessionId w)) with
      | None => cannot_read "undefined" "messages"
      | Some _ => cannot_read "undefined" "push"
      end /\
  (trim (userInput w) <> EmptyString -> handleChatSubmit_start w = (Throw e, w)) /\
  forall p f,
    fst (handleChatSubmit_settle p f w) = Throw e /\
    allSessions (snd (handleChatSubmit_settle p f w)) = allSessions w /\
    ls_chatSessions (snd (handleChatSubmit_settle p f w)) = ls_chatSessions w /\
    builtins (snd (handleChatSubmit_settle p f w)) = builtins w.
Proof.
  intros Hs. split; [|split; [|split]].
  - unfold push_error in Hs.
    by destruct (allSessions w !! propkey (currentSessionId w)).
  - unfold push_error in Hs.
    destruct (allSessions w !! propkey (currentSessionId w)); [discriminate|].
    destruct (inherited (builtins w) (propkey (currentSessionId w))) as [b|];
      [|by injection Hs].
    destruct (builtin_messages (builtins w) b); [discriminate|by injection Hs].
  - intros Ht. destruct (trim (userInput w)) as [|c t] eqn:Htrim; [done|].
    by apply (handleChatSubmit_start_dangling w c t).
  - intros p f. destruct (handleChatSubmit_settle_dangling p f w e Hs) as (H1 & H2 & H3 & _ & H5).
    by repeat split.
Qed.

Lemma handleChatSubmit_without_active_session_witness :
  (let w := snd (switchSession "session-404" in_flight) in
   fst (handleChatSubmit_settle in_flight_pending (Resolved reply_answer) w)
   = Throw (cannot_read "undefined" "messages") /\
   allSessions (snd (handleChatSubmit_settle in_flight_pending (Resolved reply_answer) w))
   = allSessions w) /\
  (let w := set_userInput question (snd (init constructor_page)) in
   handleChatSubmit_start w = (Throw (cannot_read "undefined" "push"), w)).
Proof.
  split.
  - destruct (handleChatSubmit_without_active_session
                (snd (switchSession "session-404" in_flight))
                (cannot_read "undefined" "messages")) as (_ & _ & _ & H).
    + vm_compute; reflexivity.
    + destruct (H in_flight_pending (Resolved reply_answer)) as (H1 & H2 & _). by split.
  - destruct (handleChatSubmit_without_active_session
                (set_userInput question (snd (init constructor_page)))
                (cannot_read "undefined" "push")) as (_ & _ & H & _).
    + vm_compute; reflexivity.
    + apply H. vm_compute. discriminate.
Defined.

Lemma handleChatSubmit_settle_synced p f w :
  active_valid w -> synced (snd (handleChatSubmit_settle p f w)).
Proof.
  intros Hv. unfold handleChatSubmit_settle. destruct f as [e|r].
  - unfold handleChatSubmit_fetched. js_simpl.
    pose proof (handleChatSubmit_catch_synced p e w Hv) as H.
    by destruct (handleChatSubmit_catch p e w) as [[[]|e'] w'].
  - js_simpl. rewrite handleChatSubmit_fetched_resolved. cbv beta iota.
    by apply handleChatSubmit_body_synced.
Qed.

Lemma settle_messages_shape f :
  (length (settle_messages f) = 1 \/ length (settle_messages f) = 2)%nat /\
  Forall (fun m => sender m = bot) (settle_messages f).
Proof.
  destruct f as [e|r]; cbn [settle_messages]; [split; [by left|by repeat constructor]|].
  unfold reply_messages.
  destruct (body r) as [msg| |fields]; destruct (ok r);
    try destruct (is_string (get_field fields "answer"));
    split; cbn; auto; by repeat constructor.
Qed.

(** X11: with a valid active id the end of a request never raises, whatever
    the outcome of [fetch] and whatever the body.  It appends one or two bot
    messages to the active session and nothing else: the messages already
    there are kept in place, every other session is what it was, the active
    id is unchanged, no further request is issued (no retry), and the store
    holds the new state when it returns. *)
Theorem handleChatSubmit_settle_total (p : Pending) (f : FetchResult) (w : World) :
  active_valid w ->
  exists w' s new,
    handleChatSubmit_settle p f w = (Normal tt, w') /\
    allSessions w !! propkey (currentSessionId w) = Some s /\
    allSessions w' !! propkey (currentSessionId w)
    = Some {| title := title s; messages := messages s ++ new |} /\
    (length new = 1 \/ length new = 2)%nat /\
    Forall (fun m => sender m = bot) new /\
    (forall k, k <> propkey (currentSessionId w) -> allSessions w' !! k = allSessions w !! k) /\
    currentSessionId w' = currentSessionId w /\
    requests w' = requests w /\
    synced w'.
Proof.
  intros Hv. destruct (active_valid_lookup w Hv) as (s & Hs).
  destruct (handleChatSubmit_settle_appends p f w s Hs) as (w' & Hrun & Ha & Hc & Hr).
  pose proof (handleChatSubmit_settle_synced p f w Hv) as Hsync. rewrite Hrun in Hsync.
  destruct (settle_messages_shape f) as [Hlen Hbot].
  exists w', s, (settle_messages f). rewrite Ha, lookup_insert_eq.
  split; [exact Hrun|]. split; [exact Hs|]. split; [reflexivity|].
  split; [exact Hlen|]. split; [exact Hbot|].
  split; [|split; [exact Hc|split; [exact Hr|exact Hsync]]].
  intros k Hk. by rewrite lookup_insert_ne.
Qed.

Lemma handleChatSubmit_settle_total_witness :
  active_valid (snd asked) /\
  exists w' s new,
    handleChatSubmit_settle asked_pending (Resolved reply_without_answer) (snd asked)
    = (Normal tt, w') /\
    allSessions (snd asked) !! propkey (currentSessionId (snd asked)) = Some s /\
    allSessions w' !! propkey (currentSessionId (snd asked))
    = Some {| title := title s; messages := messages s ++ new |} /\
    (length new = 1 \/ length new = 2)%nat /\
    requests w' = requests (snd asked) /\
    synced w'.
Proof.
  assert (Hv : active_valid (snd asked)).
  { exists "session-1000". split; vm_compute; eauto. }
  split; [exact Hv|].
  destruct (handleChatSubmit_settle_total asked_pending (Resolved reply_without_answer)
              (snd asked) Hv)
    as (w' & s & new & Hrun & Hs & Hs' & Hlen & _ & _ & _ & Hr & Hsync).
  exists w', s, new.
  split; [exact Hrun|]. split; [exact Hs|]. split; [exact Hs'|].
  split; [exact Hlen|]. split; [exact Hr|exact Hsync].
Defined.

(** X12: clearing the chat does not cancel a request in flight.  When its
    reply then arrives, a 2xx with a string answer, the answer is appended
    to the cleared session, which holds the greeting and the answer, without
    the question that was asked. *)
Theorem clearChat_then_reply
    (w : World) (s : Session) (p : Pending) (r : Response)
    (fields : gmap string jsval) (a : string) :
  allSessions w !! propkey (currentSessionId w) = Some s ->
  ok r = true ->
  body r = JsonObject fields ->
  fields !! "answer" = Some (JStr a) ->
  exists w1 w2,
    clearChat w = (Normal tt, w1) /\
    handleChatSubmit_settle p (Resolved r) w1 = (Normal tt, w2) /\
    allSessions w2 !! propkey (currentSessionId w)
    = Some {| title := title s; messages := [greeting; bot_says (JStr a)] |}.
Proof.
  intros Hs Hok Hbody Ha.
  destruct (clearChat_result w s Hs) as (w1 & Hclear & Ha1 & Hc1 & _).
  destruct (handleChatSubmit_settle_appends p (Resolved r) w1
              {| title := title s; messages := [greeting] |})
    as (w2 & Hrun & Ha2 & _).
  { rewrite Hc1, Ha1. apply lookup_insert_eq. }
  exists w1, w2. split; [exact Hclear|]. split; [exact Hrun|].
  rewrite Ha2, Hc1, lookup_insert_eq. cbn [settle_messages title messages].
  unfold reply_messages, get_field. by rewrite Hbody, Hok, Ha.
Qed.

Lemma clearChat_then_reply_witness :
  exists w1 w2,
    clearChat (snd asked) = (Normal tt, w1) /\
    handleChatSubmit_settle asked_pending (Resolved reply_answer) w1 = (Normal tt, w2) /\
    allSessions w2 !! "session-1000"
    = Some {| title := "Chat 1"; messages := [greeting; bot_says (JStr "X is Y")] |}.
Proof.
  apply (clearChat_then_reply (snd asked)
           {| title := "Chat 1";
              messages := [greeting; {| sender := user; text := JStr question |}] |}
           asked_pending reply_answer {[ "answer" := JStr "X is Y" ]} "X is Y").
  - vm_compute; reflexivity.
  - reflexivity.
  - reflexivity.
  - vm_compute; reflexivity.
Defined.

End Conversation.

Section ExportAndUpload.

Lemma has_white_space_append a b :
  has_white_space (a +:+ b) = has_white_space a || has_white_space b.
Proof.
  induction a as [|c a IH]; [done|].
  change (String c a +:+ b) with (String c (a +:+ b)). cbn. by rewrite IH, orb_assoc.
Qed.

Lemma dash_spaces_no_white_space s : forall in_run,
  has_white_space (dash_spaces in_run s) = false.
Proof.
  induction s as [|c r IH]; intros in_run; cbn; [done|].
  destruct (is_white_space c) eqn:Hc.
  - destruct in_run; cbn; by rewrite ?IH.
  - cbn. by rewrite Hc, IH.
Qed.

Lemma dash_spaces_unchanged s : forall in_run,
  has_white_space s = false -> dash_spaces in_run s = s.
Proof.
  induction s as [|c r IH]; intros in_run; cbn; [done|].
  intros [Hc Hr]%orb_false_elim. rewrite Hc. by rewrite IH.
Qed.

(** X13: [exportChat()] never changes the sessions, the active id, the
    store, the chat history, the requests or the messages set on built-in
    objects.  It returns whenever the active id is a key, and whenever it is
    neither a key nor the name of an inherited property.  It either adds
    nothing to the downloads or adds exactly one file, whose name starts with
    [chat-session-], ends with [.txt] and holds no white space character,
    every run of white space of the title having become one dash; a title
    without white space is used as it is.  When the active id is not a key
    but names an inherited property ([constructor], ...), no file is
    produced: the call raises a [TypeError] at [length] when the object found
    bears no messages and at [title.replace] (line 232) when it bears some,
    and only notifies when it bears none in an array. *)
Theorem exportChat_file (stamp : string) (w : World) :
  chat_untouched w (snd (exportChat stamp w)) /\
  builtins (snd (exportChat stamp w)) = builtins w /\
  (is_Some (allSessions w !! propkey (currentSessionId w)) \/
   inherited (builtins w) (propkey (currentSessionId w)) = None ->
   returns (exportChat stamp w)) /\
  (allSessions w !! propkey (currentSessionId w) = None ->
   forall b, inherited (builtins w) (propkey (currentSessionId w)) = Some b ->
     downloads (snd (exportChat stamp w)) = downloads w /\
     fst (exportChat stamp w)
     = match builtin_messages (builtins w) b with
       | None => Throw (cannot_read "undefined" "length")
       | Some [] => Normal tt
       | Some (_ :: _) => Throw (cannot_read "undefined" "replace")
       end) /\
  (downloads (snd (exportChat stamp w)) = downloads w \/
   exists s text,
     allSessions w !! propkey (currentSessionId w) = Some s /\
     downloads (snd (exportChat stamp w))
     = downloads w ++ [("chat-session-" +:+ dash_spaces false (title s) +:+ ".txt", text)] /\
     has_white_space ("chat-session-" +:+ dash_spaces false (title s) +:+ ".txt") = false /\
     (has_white_space (title s) = false -> dash_spaces false (title s) = title s)).
Proof.
  unfold exportChat, showNotification, returns. js_simpl.
  destruct (allSessions w !! propkey (currentSessionId w)) as [s|] eqn:Hs.
  - destruct (decide (length (messages s) = 0%nat)).
    + split; [by repeat split|]. split; [done|]. split; [done|]. split; [done|by left].
    + split; [by repeat split|]. split; [done|]. split; [done|]. split; [done|]. right.
      eexists s, _. split; [reflexivity|]. split; [reflexivity|]. split.
      * by rewrite !has_white_space_append, dash_spaces_no_white_space.
      * apply dash_spaces_unchanged.
  - destruct (inherited (builtins w) (propkey (currentSessionId w))) as [b|] eqn:Hb.
    + destruct (builtin_messages (builtins w) b) as [[|m l]|] eqn:Hm.
      all: split; [by repeat split|]; split; [done|].
      all: split; [intros [[s' H]|H]; discriminate|].
      all: split; [|by left].
      all: intros _ b' [= <-]; by rewrite Hm.
    + split; [by repeat split|]. split; [done|]. split; [done|].
      split; [|by left]. intros _ b' H. discriminate.
Qed.

Lemma exportChat_file_witness :
  returns (exportChat "01/11/2026, 10:00:00" answered) /\
  (let w := snd (init constructor_page) in
   currentSessionId w = Some "constructor" /\
   fst (exportChat "01/11/2026, 10:00:00" w)
   = match builtin_messages (builtins w) (Method "constructor") with
     | None => Throw (cannot_read "undefined" "length")
     | Some [] => Normal tt
     | Some (_ :: _) => Throw (cannot_read "undefined" "replace")
     end /\
   downloads (snd (exportChat "01/11/2026, 10:00:00" w)) = downloads w).
Proof.
  split.
  - destruct (exportChat_file "01/11/2026, 10:00:00" answered) as (_ & _ & H & _).
    apply H. left. vm_compute. eauto.
  - cbv zeta. split; [vm_compute; reflexivity|].
    destruct (exportChat_file "01/11/2026, 10:00:00" (snd (init constructor_page)))
      as (_ & _ & _ & H & _).
    destruct (H ltac:(vm_compute; reflexivity) (Method "constructor")
                ltac:(vm_compute; reflexivity)) as [Hd Hthrow].
    split; [exact Hthrow|exact Hd].
Defined.

(** X14: the three callbacks of an upload never touch the conversation:
    sessions, active id, store, chat history, requests and text area are
    what they were after [handleFileUpload], after a progress event and
    after the end of the upload, whether that callback returns or raises.
    The end of the upload resets the progress bar in every case and signals
    at most one notification. *)
Theorem upload_leaves_chat_untouched
    (file : option File) (lengthComputable : bool) (loaded total : Z)
    (e : UploadEnd) (w : World) :
  chat_untouched w (snd (handleFileUpload file w)) /\
  chat_untouched w (snd (xhr_onprogress lengthComputable loaded total w)) /\
  chat_untouched w (snd (xhr_complete e w)) /\
  uploadProgressBar (snd (xhr_complete e w)) = WidthZero /\
  (notifications (snd (xhr_complete e w)) = notifications w \/
   exists n, notifications (snd (xhr_complete e w)) = notifications w ++ [n]).
Proof.
  split; [by destruct file|]. split; [by destruct lengthComputable|].
  destruct e as [st txt|].
  - unfold xhr_complete, xhr_onload, JSON_parse, read_prop, showNotification. js_simpl.
    destruct (decide (st = 200%Z)); destruct txt; cbn;
      (split; [by repeat split|]); (split; [reflexivity|]); eauto.
  - cbn. split; [by repeat split|]. split; [reflexivity|]. eauto.
Qed.

(** X15: the end of an upload with status 200.  A body that parses to an
    object signals exactly one notification, not flagged as an error, with
    the value of its [message]; a body that does not parse, or parses to
    null, signals nothing: the error leaves the callback, the progress bar
    having been reset. *)
Theorem xhr_onload_status_200 (responseText : Json) (w : World) :
  xhr_complete (Loaded 200 responseText) w
  = match responseText with
    | JsonObject fields =>
        (Normal tt,
         set_notifications (notifications w ++ [(get_field fields "message", false)])
           (set_uploadProgressBar WidthZero w))
    | JsonMalformed msg =>
        (Throw (Thrown SyntaxError msg), set_uploadProgressBar WidthZero w)
    | JsonNull =>
        (Throw (cannot_read "null" "message"), set_uploadProgressBar WidthZero w)
    end.
Proof. by destruct responseText. Qed.

Lemma builtin_assign_messages msgs b B :
  builtin_messages (builtin_assign msgs b B) b = Some msgs.
Proof.
  destruct b as [name| |]; cbn; [|done|done]. by rewrite lookup_insert_eq.
Qed.

(** What [clearChat] assigns to is found again under the same name. *)
Lemma inherited_assign msgs b B k :
  inherited B k = Some b -> inherited (builtin_assign msgs b B) k = Some b.
Proof.
  unfold inherited.
  destruct (bool_decide (k ∈ Object_prototype_methods)); [by intros [= <-]|].
  destruct (bool_decide (k = "__proto__")); [by intros [= <-]|].
  destruct (bool_decide (k = "messages")); [|done].
  destruct (prototype_messages B) eqn:Hp; [|done].
  intros [= <-]. cbn. by rewrite Hp.
Qed.

(** X16: what [clearChat()] does follows what [allSessions[currentSessionId]]
    yields.  When the active id is a key, the call returns, the history
    shows the greeting alone, the store holds the cleared sessions, one
    notification [Chat cleared] is signalled, not flagged as an error, no
    request is issued, and clearing once more changes no session.  When the
    active id is neither a key nor the name of an inherited property, the
    call does nothing at all.  When it is not a key but names an inherited
    property ([constructor], ...), the guard of line 241 passes: the
    greeting is assigned as the [messages] of the built-in object found,
    every session being left as it was, and the history, the store and the
    notification are written as for a session; from then on the push of
    line 146 finds an array and raises no more. *)
Theorem clearChat_effects (w : World) :
  match allSessions w !! propkey (currentSessionId w) with
  | Some s =>
      exists w',
        clearChat w = (Normal tt, w') /\
        chatHistory w'
        = [ {| div_id := "msg-" +:+ pretty (date_now w (date_reads w)); div_sender := bot;
               div_bubble := Formatted "Hello! Ask me anything about the knowledge base." |} ] /\
        ls_chatSessions w' = SessionsJson (allSessions w') /\
        ls_currentSessionId w' = Some (propkey (currentSessionId w')) /\
        notifications w' = notifications w ++ [(JStr "Chat cleared", false)] /\
        requests w' = requests w /\
        allSessions (snd (clearChat w')) = allSessions w'
  | None =>
      match inherited (builtins w) (propkey (currentSessionId w)) with
      | None => clearChat w = (Normal tt, w)
      | Some b =>
          exists w',
            clearChat w = (Normal tt, w') /\
            allSessions w' = allSessions w /\
            currentSessionId w' = currentSessionId w /\
            builtins w' = builtin_assign [greeting] b (builtins w) /\
            builtin_messages (builtins w') b = Some [greeting] /\
            chatHistory w'
            = [ {| div_id := "msg-" +:+ pretty (date_now w (date_reads w)); div_sender := bot;
                   div_bubble := Formatted "Hello! Ask me anything about the knowledge base." |} ] /\
            ls_chatSessions w' = SessionsJson (allSessions w) /\
            ls_currentSessionId w' = Some (propkey (currentSessionId w)) /\
            notifications w' = notifications w ++ [(JStr "Chat cleared", false)] /\
            requests w' = requests w /\
            push_error w' = None
      end
  end.
Proof.
  destruct (allSessions w !! propkey (currentSessionId w)) as [s|] eqn:Hs.
  - assert (Hrun : exists w',
              clearChat w = (Normal tt, w') /\
              chatHistory w'
              = [ {| div_id := "msg-" +:+ pretty (date_now w (date_reads w)); div_sender := bot;
                     div_bubble := Formatted "Hello! Ask me anything about the knowledge base." |} ] /\
              ls_chatSessions w' = SessionsJson (allSessions w') /\
              ls_currentSessionId w' = Some (propkey (currentSessionId w')) /\
              notifications w' = notifications w ++ [(JStr "Chat cleared", false)] /\
              requests w' = requests w).
    { unfold clearChat, saveSessions, showNotification. js_simpl. rewrite Hs.
      rewrite addMessageToUI_formatted by discriminate. cbn.
      eexists. split; [reflexivity|]. by repeat split. }
    destruct Hrun as (w' & Hrun & Hh & Hl & Hi & Hn & Hr).
    exists w'. do 6 (split; [assumption|]).
    destruct (clearChat_result w s Hs) as (w1 & Hrun1 & Ha1 & Hc1 & _).
    rewrite Hrun in Hrun1. injection Hrun1 as <-.
    destruct (clearChat_result w' {| title := title s; messages := [greeting] |})
      as (w2 & -> & Ha2 & _).
    { rewrite Hc1, Ha1. apply lookup_insert_eq. }
    cbn [snd]. rewrite Ha2, Hc1, Ha1. cbn. by rewrite insert_insert_eq.
  - destruct (inherited (builtins w) (propkey (currentSessionId w))) as [b|] eqn:Hb.
    + unfold clearChat, saveSessions, showNotification. js_simpl. rewrite Hs, Hb.
      rewrite addMessageToUI_formatted by discriminate. cbn.
      eexists. split; [reflexivity|]. cbn.
      pose proof (inherited_assign [greeting] b (builtins w) _ Hb) as Hb'.
      do 4 (split; [first [reflexivity|apply builtin_assign_messages]|]).
      do 5 (split; [reflexivity|]).
      unfold push_error. cbn. by rewrite Hs, Hb', builtin_assign_messages.
    + unfold clearChat. js_simpl. by rewrite Hs, Hb.
Qed.

Lemma clearChat_effects_witness :
  let w := snd (init constructor_page) in
  push_error w = Some (cannot_read "undefined" "push") /\
  exists w',
    clearChat w = (Normal tt, w') /\
    allSessions w' = ∅ /\
    builtin_messages (builtins w') (Method "constructor") = Some [greeting] /\
    notifications w' = [(JStr "Chat cleared", false)] /\
    push_error w' = None.
Proof.
  cbv zeta. split; [vm_compute; reflexivity|].
  pose proof (clearChat_effects (snd (init constructor_page))) as H.
  assert (Hs : allSessions (snd (init constructor_page))
               !! propkey (currentSessionId (snd (init constructor_page))) = None)
    by (vm_compute; reflexivity).
  assert (Hb : inherited (builtins (snd (init constructor_page)))
                 (propkey (currentSessionId (snd (init constructor_page))))
               = Some (Method "constructor"))
    by (vm_compute; reflexivity).
  rewrite Hs, Hb in H.
  destruct H as (w' & Hrun & Ha & _ & _ & Hm & _ & _ & _ & Hn & _ & Hp).
  exists w'. split; [exact Hrun|]. split; [rewrite Ha; vm_compute; reflexivity|].
  split; [exact Hm|]. split; [exact Hn|exact Hp].
Defined.

(** X29: a submission made while the active id is not a key but names an
    inherited property whose object bears messages (the state [clearChat]
    leaves behind for such an id) goes through: the request is sent, and the
    user message is pushed on the built-in object.  No session receives it,
    and the sessions written to the store are the unchanged ones: the
    message is not persisted. *)
Theorem handleChatSubmit_on_inherited
    (w : World) (b : Builtin) (msgs : list Message) :
  allSessions w !! propkey (currentSessionId w) = None ->
  inherited (builtins w) (propkey (currentSessionId w)) = Some b ->
  builtin_messages (builtins w) b = Some msgs ->
  trim (userInput w) <> EmptyString ->
  exists p w1,
    handleChatSubmit_start w = (Normal (Some p), w1) /\
    requests w1 = requests w ++ [trim (userInput w)] /\
    allSessions w1 = allSessions w /\
    ls_chatSessions w1 = SessionsJson (allSessions w) /\
    builtins w1
    = builtin_push {| sender := user; text := JStr (trim (userInput w)) |} b (builtins w) /\
    builtin_messages (builtins w1) b
    = Some (msgs ++ [{| sender := user; text := JStr (trim (userInput w)) |}]).
Proof.
  intros Hs Hb Hm Ht. destruct (trim (userInput w)) as [|c t] eqn:Htrim; [done|].
  assert (Hrun : exists p w1,
            handleChatSubmit_start w = (Normal (Some p), w1) /\
            requests w1 = requests w ++ [String c t] /\
            allSessions w1 = allSessions w /\
            ls_chatSessions w1 = SessionsJson (allSessions w) /\
            builtins w1
            = builtin_push {| sender := user; text := JStr (String c t) |} b (builtins w)).
  { unfold handleChatSubmit_start. js_simpl. rewrite Htrim.
    rewrite (push_message_inherited _ w b msgs Hs Hb Hm).
    rewrite addMessageToUI_text. cbv beta iota.
    unfold saveSessions. js_simpl. rewrite addMessageToUI_text. cbv beta iota.
    do 2 eexists. split; [reflexivity|]. by repeat split. }
  destruct Hrun as (p & w1 & Hrun & Hr & Ha & Hl & HB).
  exists p, w1. do 5 (split; [assumption|]). rewrite HB.
  revert Hm. clear. destruct b as [name| |]; cbn.
  - destruct (method_messages (builtins w) !! name) as [l|] eqn:Hl; cbn.
    + intros [= <-]. by rewrite lookup_insert_eq.
    + intros ->. by rewrite Hl.
  - by intros ->.
  - destruct (array_messages (builtins w)) as [l|] eqn:Hl; cbn.
    + by intros [= <-].
    + intros ->. by rewrite Hl.
Qed.

Lemma handleChatSubmit_on_inherited_witness :
  let w := set_userInput question (snd (clearChat (snd (init constructor_page)))) in
  exists p w1,
    handleChatSubmit_start w = (Normal (Some p), w1) /\
    requests w1 = [question] /\
    allSessions w1 = ∅ /\
    ls_chatSessions w1 = SessionsJson ∅ /\
    builtin_messages (builtins w1) (Method "constructor")
    = Some [greeting; {| sender := user; text := JStr question |}].
Proof.
  destruct (handleChatSubmit_on_inherited
              (set_userInput question (snd (clearChat (snd (init constructor_page)))))
              (Method "constructor") [greeting])
    as (p & w1 & Hrun & Hr & Ha & Hl & _ & Hm).
  - vm_compute; reflexivity.
  - vm_compute; reflexivity.
  - vm_compute; reflexivity.
  - vm_compute; discriminate.
  - exists p, w1. split; [exact Hrun|]. split; [exact Hr|].
    split; [rewrite Ha; vm_compute; reflexivity|].
    split; [rewrite Hl; vm_compute; reflexivity|exact Hm].
Defined.

End ExportAndUpload.

Section Sessions.

(** X17: [createNewSession()] always returns, also when the id made from
    the clock reading is already a key.  The new session, titled by the
    number of sessions before the call plus one and holding the greeting
    alone, is stored under that id, replacing whatever was there; it is the
    active session, the store holds the new state, and the history shows the
    greeting alone.  The number of sessions grows by one exactly when the id
    was not a key. *)
Theorem createNewSession_always (w : World) :
  exists w',
    createNewSession w = (Normal tt, w') /\
    allSessions w'
    = <[ next_session_id w :=
           {| title := "Chat " +:+ pretty (size (allSessions w) + 1)%nat;
              messages := [greeting] |} ]> (allSessions w) /\
    currentSessionId w' = Some (next_session_id w) /\
    active_valid w' /\
    synced w' /\
    chatHistory w'
    = [ {| div_id := "msg-" +:+ pretty (date_now w (S (date_reads w))); div_sender := bot;
           div_bubble := Formatted "Hello! Ask me anything about the knowledge base." |} ] /\
    size (allSessions w')
    = (if decide (is_Some (allSessions w !! next_session_id w))
       then size (allSessions w) else S (size (allSessions w))).
Proof.
  assert (Hrun : exists w',
            createNewSession w = (Normal tt, w') /\
            chatHistory w'
            = [ {| div_id := "msg-" +:+ pretty (date_now w (S (date_reads w)));
                   div_sender := bot;
                   div_bubble := Formatted "Hello! Ask me anything about the knowledge base." |} ]).
  { unfold createNewSession, Date_now, renderSessionList, loadChatHistory, saveSessions.
    js_simpl. cbn. rewrite lookup_insert_eq. cbn [messages forEach greeting sender text].
    js_simpl. rewrite addMessageToUI_formatted by discriminate. cbn. eauto. }
  destruct Hrun as (w' & Hrun & Hh).
  destruct (createNewSession_result w) as (w1 & Hrun1 & Ha & Hc & _).
  rewrite Hrun in Hrun1. injection Hrun1 as <-.
  pose proof (createNewSession_synced w) as Hsync. rewrite Hrun in Hsync.
  exists w'. split; [exact Hrun|]. split; [exact Ha|]. split; [exact Hc|].
  split; [|split; [exact Hsync|split; [exact Hh|]]].
  - exists (next_session_id w). split; [exact Hc|]. rewrite Ha, lookup_insert_eq. eauto.
  - rewrite Ha. destruct (decide (is_Some (allSessions w !! next_session_id w))) as [Hs|Hn].
    + by apply map_size_insert_Some.
    + apply map_size_insert_None. by apply eq_None_not_Some.
Qed.

(** X19: from a state whose active id is valid, no run of listeners leads
    to a state whose active id names no session, as long as every click on
    the sidebar passes a listed id: creation, switching, clearing, export,
    typing, submission, the end of any request and the upload callbacks all
    keep the active id a key of the sessions. *)
Theorem active_id_stays_valid (evs : list Event) (w : World) :
  active_valid w ->
  clicks_listed evs w ->
  active_valid (run_events evs w).
Proof. revert w. induction evs as [|ev evs IH]; intros w Hv Hl; cbn in *; [exact Hv|].
  destruct Hl as [Hev Hl]. apply IH; [by apply dispatch_active_valid|exact Hl].
Qed.

Lemma active_id_stays_valid_witness :
  active_valid started /\
  clicks_listed busy_events started /\
  active_valid (run_events busy_events started).
Proof.
  assert (Hv : active_valid started) by apply started_active_valid.
  assert (Hl : clicks_listed busy_events started).
  { vm_compute. repeat split; eauto. }
  split; [exact Hv|]. split; [exact Hl|].
  exact (active_id_stays_valid busy_events started Hv Hl).
Defined.

End Sessions.

Section MoreSessions.


(** X20: a run of [n] calls of [createNewSession()] adds one session per
    call and loses none, every session present before the run being still
    there, unchanged, after it, provided the ids differ: the clock readings
    the calls make their ids from (every second reading, the other one
    naming the bubble of the greeting) are pairwise distinct and name no
    existing session.  Nothing is asked of the readings in between. *)
Theorem createNewSession_times_adds (n : nat) (w : World) :
  (forall i j, (i < n)%nat -> (j < n)%nat ->
               date_now w (date_reads w + 2 * i) = date_now w (date_reads w + 2 * j) -> i = j) ->
  (forall i, (i < n)%nat ->
             allSessions w !! session_id (date_now w (date_reads w + 2 * i)) = None) ->
  size (allSessions (createNewSession_times n w)) = (size (allSessions w) + n)%nat /\
  forall k s, allSessions w !! k = Some s ->
              allSessions (createNewSession_times n w) !! k = Some s.
Proof.
  revert w. induction n as [|n IH]; intros w Hinj Hfresh; cbn [createNewSession_times];
    [split; [lia|done]|].
  destruct (createNewSession_result w) as (w' & Hrun & Hall & _ & _ & _ & Hnow & Hreads).
  rewrite Hrun. cbn [snd].
  assert (H0 : allSessions w !! next_session_id w = None).
  { unfold next_session_id. specialize (Hfresh 0%nat ltac:(lia)).
    by rewrite Nat.mul_0_r, Nat.add_0_r in Hfresh. }
  destruct (IH w') as [Hsize Hkeep].
  - rewrite Hnow, Hreads. intros i j Hi Hj Heq.
    assert (S i = S j); [|lia]. apply Hinj; [lia|lia|].
    by replace (date_reads w + 2 * S i)%nat with (S (S (date_reads w)) + 2 * i)%nat by lia;
       replace (date_reads w + 2 * S j)%nat with (S (S (date_reads w)) + 2 * j)%nat by lia.
  - rewrite Hnow, Hreads, Hall. intros i Hi.
    replace (S (S (date_reads w)) + 2 * i)%nat with (date_reads w + 2 * S i)%nat by lia.
    rewrite lookup_insert_ne; [apply Hfresh; lia|].
    unfold next_session_id. intros Heq. apply session_id_inj in Heq.
    assert (0 = S i)%nat; [|lia]. apply Hinj; [lia|lia|].
    by rewrite Nat.mul_0_r, Nat.add_0_r.
  - split.
    + rewrite Hsize, Hall, map_size_insert_None by exact H0. lia.
    + intros k s Hk. apply Hkeep. rewrite Hall, lookup_insert_ne; [exact Hk|].
      intros <-. congruence.
Qed.

Lemma createNewSession_times_adds_witness :
  size (allSessions (createNewSession_times 3 slow_clock_page)) = 3%nat /\
  size (allSessions (createNewSession_times 3 started))
  = (size (allSessions started) + 3)%nat /\
  allSessions (createNewSession_times 3 started) !! "session-1000"
  = Some {| title := "Chat 1"; messages := [greeting] |}.
Proof.
  split.
  - assert (Hclock : forall i,
              date_now slow_clock_page (date_reads slow_clock_page + 2 * i)
              = (1000 + Z.of_nat i)%Z).
    { intros i. change (1000 + Z.of_nat ((0 + 2 * i) / 2) = 1000 + Z.of_nat i)%Z.
      by rewrite Nat.add_0_l, Nat.mul_comm, Nat.div_mul. }
    destruct (createNewSession_times_adds 3 slow_clock_page) as [Hsize _].
    + intros i j _ _. rewrite !Hclock. lia.
    + intros i _. apply lookup_empty.
    + exact Hsize.
  - assert (Hclock : date_now started = clock_from 1000) by (vm_compute; reflexivity).
    assert (Hreads : date_reads started = 3%nat) by (vm_compute; reflexivity).
    destruct (createNewSession_times_adds 3 started) as [Hsize Hkeep].
    + intros i j _ _. rewrite Hclock. unfold clock_from. lia.
    + intros i Hi. rewrite Hclock. destruct started_sessions as [-> _].
      apply lookup_singleton_ne. intros H.
      change "session-1000" with (session_id 1000) in H.
      apply session_id_inj in H. rewrite Hreads in H. unfold clock_from in H. lia.
    + split; [exact Hsize|]. apply Hkeep. vm_compute; reflexivity.
Defined.

(** X21: [switchSession] is idempotent: after a call with some id, a second
    call with the same id returns at once and changes nothing, whether the
    first call returned or raised while rendering. *)
Theorem switchSession_twice (sessionId : string) (w : World) :
  switchSession sessionId (snd (switchSession sessionId w))
  = (Normal tt, snd (switchSession sessionId w)).
Proof. apply switchSession_same, switchSession_active. Qed.

End MoreSessions.

Section Formatting.

Lemma append_String c a b : String c a +:+ b = String c (a +:+ b).
Proof. reflexivity. Qed.

Lemma length_append a b : String.length (a +:+ b) = (String.length a + String.length b)%nat.
Proof.
  induction a as [|c a IH]; [done|]. rewrite append_String. cbn. by rewrite IH.
Qed.

Lemma two_stars_length s r : two_stars s = Some r -> String.length s = S (S (String.length r)).
Proof.
  destruct s as [|a [|b s]]; cbn; try discriminate.
  destruct (is_star a && is_star b); [|discriminate]. by intros [= ->].
Qed.

Lemma find_close_length s : forall g r,
  find_close s = Some (g, r) ->
  String.length s = (String.length g + S (S (String.length r)))%nat.
Proof.
  induction s as [|c s IH]; intros g r; [discriminate|].
  cbn [find_close]. destruct (two_stars (String c s)) as [r0|] eqn:Hts.
  - intros [= <- <-]. by apply two_stars_length.
  - destruct (is_line_terminator c); [discriminate|].
    destruct (find_close s) as [[g' r']|] eqn:Hfc; [|discriminate].
    intros [= <- <-]. cbn. by rewrite (IH g' r').
Qed.

(** More fuel than the length changes nothing. *)
Lemma format_go_fuel n : forall m s,
  (String.length s <= n)%nat -> (String.length s <= m)%nat ->
  format_go n s = format_go m s.
Proof.
  induction n as [|n IH]; intros m s Hn Hm.
  - destruct s; [|cbn in Hn; lia]. by destruct m.
  - destruct m as [|m].
    + destruct s; [done|cbn in Hm; lia].
    + cbn [format_go].
      assert (Hcopy : match s with
                      | EmptyString => EmptyString
                      | String c r => String c (format_go n r)
                      end
                      = match s with
                        | EmptyString => EmptyString
                        | String c r => String c (format_go m r)
                        end).
      { destruct s as [|c r]; [done|]. cbn in Hn, Hm. f_equal. apply IH; lia. }
      destruct (two_stars s) as [r|] eqn:Hts; [|exact Hcopy].
      destruct (find_close r) as [[g r']|] eqn:Hfc; [|exact Hcopy].
      apply two_stars_length in Hts. apply find_close_length in Hfc.
      do 3 f_equal. apply IH; lia.
Qed.

Lemma format_go_plain n : forall s,
  has_two_stars s = false -> format_go n s = s.
Proof.
  induction n as [|n IH]; intros s Hs; [done|].
  cbn [format_go]. destruct s as [|c r]; [done|].
  cbn [has_two_stars] in Hs. destruct (two_stars (String c r)); [discriminate|].
  f_equal. by apply IH.
Qed.

Lemma format_go_prefix x : forall n s,
  star_free x = true ->
  format_go (String.length x + n) (x +:+ s) = x +:+ format_go n s.
Proof.
  induction x as [|c x IH]; intros n s Hx; [done|].
  cbn in Hx. apply andb_prop in Hx as [Hc Hx]. apply negb_true_iff in Hc.
  rewrite !append_String. cbn [String.length Nat.add format_go].
  assert (Hts : two_stars (String c (x +:+ s)) = None).
  { cbn. destruct (x +:+ s); [done|]. by rewrite Hc. }
  rewrite Hts. f_equal. by apply IH.
Qed.

Lemma find_close_group y : forall z,
  star_free y = true -> one_line y = true ->
  find_close (y +:+ String "*" (String "*" z)) = Some (y, z).
Proof.
  induction y as [|c y IH]; intros z Hs Hl; [done|].
  cbn in Hs, Hl. apply andb_prop in Hs as [Hc Hs]. apply negb_true_iff in Hc.
  apply andb_prop in Hl as [Ht Hl]. apply negb_true_iff in Ht.
  rewrite append_String. cbn [find_close].
  assert (Hts : two_stars (String c (y +:+ String "*" (String "*" z))) = None).
  { cbn. destruct (y +:+ _); [done|]. by rewrite Hc. }
  by rewrite Hts, Ht, IH.
Qed.

Lemma find_close_open y :
  star_free y = true -> find_close y = None.
Proof.
  induction y as [|c y IH]; [done|]. cbn [star_free find_close].
  intros [Hc Hs]%andb_prop. apply negb_true_iff in Hc.
  assert (Hts : two_stars (String c y) = None).
  { cbn. destruct y; [done|]. by rewrite Hc. }
  rewrite Hts, IH by exact Hs. by destruct (is_line_terminator c).
Qed.

Lemma star_free_plain s : star_free s = true -> has_two_stars s = false.
Proof.
  induction s as [|c s IH]; [done|]. cbn [star_free has_two_stars].
  intros [Hc Hs]%andb_prop. apply negb_true_iff in Hc.
  assert (Hts : two_stars (String c s) = None).
  { cbn. destruct s; [done|]. by rewrite Hc. }
  rewrite Hts. by apply IH.
Qed.

(** X22: a text in which no two asterisks stand in a row reaches the bubble
    unchanged: nothing is escaped, so markup in the text is inserted as
    markup. *)
Theorem formattedText_plain (s : string) :
  has_two_stars s = false -> formattedText s = s.
Proof. apply format_go_plain. Qed.

Lemma formattedText_plain_witness :
  formattedText "2 * 3 < 7 & <b>x</b>" = "2 * 3 < 7 & <b>x</b>".
Proof. apply (formattedText_plain "2 * 3 < 7 & <b>x</b>"). reflexivity. Defined.

Lemma format_go_open n r :
  format_go (S n) (String "*" (String "*" r))
  = match find_close r with
    | Some (g, r') => "<strong>" +:+ g +:+ "</strong>" +:+ format_go n r'
    | None => String "*" (format_go n (String "*" r))
    end.
Proof. reflexivity. Qed.

Lemma format_go_copy n c r :
  is_star c = false ->
  format_go (S n) (String "*" (String c r)) = String "*" (format_go n (String c r)).
Proof.
  intros Hc. cbn [format_go two_stars].
  replace (is_star "*" && is_star c) with false by (by rewrite Hc, andb_false_r).
  reflexivity.
Qed.

(** X23: a run [y] of characters other than asterisks and line terminators
    that stands between two pairs of asterisks becomes
    [<strong>y</strong>]; what precedes it, when free of asterisks, is
    copied, and what follows it is formatted in turn.  An opening pair that
    no closing pair follows is copied as it is. *)
Theorem formattedText_bold (x y z : string) :
  star_free x = true ->
  star_free y = true ->
  one_line y = true ->
  formattedText (x +:+ "**" +:+ y +:+ "**" +:+ z)
  = x +:+ "<strong>" +:+ y +:+ "</strong>" +:+ formattedText z /\
  formattedText (x +:+ "**" +:+ y) = x +:+ "**" +:+ y.
Proof.
  intros Hx Hy Hl. unfold formattedText. split.
  - rewrite length_append, format_go_prefix by exact Hx. f_equal.
    change ("**" +:+ y +:+ "**" +:+ z)
      with (String "*" (String "*" (y +:+ String "*" (String "*" z)))).
    cbn [String.length]. rewrite format_go_open, find_close_group by assumption.
    rewrite length_append. cbn [String.length].
    do 3 f_equal. apply format_go_fuel; lia.
  - rewrite length_append, format_go_prefix by exact Hx. f_equal.
    change ("**" +:+ y) with (String "*" (String "*" y)).
    cbn [String.length]. rewrite format_go_open, find_close_open by exact Hy. f_equal.
    destruct y as [|c y]; [done|].
    cbn in Hy. apply andb_prop in Hy as [Hc Hy]. apply negb_true_iff in Hc.
    cbn [String.length]. rewrite format_go_copy by exact Hc. f_equal.
    apply format_go_plain, star_free_plain. cbn. by rewrite Hc.
Qed.

Lemma formattedText_bold_witness :
  formattedText ("The answer is " +:+ "**" +:+ "42" +:+ "**" +:+ ", not **41")
  = "The answer is <strong>42</strong>, not **41".
Proof.
  destruct (formattedText_bold "The answer is " "42" ", not **41") as [H _];
    [reflexivity|reflexivity|reflexivity|].
  rewrite H. reflexivity.
Defined.

End Formatting.

Section Landing.

Variable text : string.

Lemma substring_step s : forall i,
  (i < String.length s)%nat ->
  substring 0 i s +:+ charAt s i = substring 0 (S i) s.
Proof.
  unfold charAt. induction s as [|c s IH]; intros i Hi; [cbn in Hi; lia|].
  destruct i as [|i]; [by destruct s|].
  cbn in Hi. cbn [substring String.get]. rewrite append_String. f_equal.
  apply IH. lia.
Qed.

Lemma substring_all s : forall n,
  (String.length s <= n)%nat -> substring 0 n s = s.
Proof.
  induction s as [|c s IH]; intros n Hn; [by destruct n|].
  destruct n as [|n]; [cbn in Hn; lia|]. cbn in Hn |- *. f_equal. apply IH. lia.
Qed.

(** The page after the call of [init] and [n] timer periods. *)
Lemma landing_ticks_state t0 n :
  landing_ticks text n
    (typeLandingTitle_of text {| charIndex := 0; landingTitle := t0; timer := false |})
  = {| charIndex := Nat.min (S n) (String.length text);
       landingTitle := t0 +:+ substring 0 (Nat.min (S n) (String.length text)) text;
       timer := bool_decide (S n <= String.length text)%nat |}.
Proof.
  induction n as [|n IH].
  - cbn [landing_ticks]. unfold typeLandingTitle_of. cbn [charIndex landingTitle].
    destruct (0 <? String.length text)%nat eqn:Hlt.
    + apply Nat.ltb_lt in Hlt. rewrite Nat.min_l by lia.
      rewrite bool_decide_eq_true_2 by lia. f_equal.
      rewrite <- (substring_step text 0 Hlt). by destruct text.
    + apply Nat.ltb_ge in Hlt. rewrite Nat.min_r by lia.
      rewrite bool_decide_eq_false_2 by lia.
      destruct text; [|cbn in Hlt; lia]. cbn. f_equal.
      clear. induction t0 as [|c t IH]; [done|]. rewrite append_String. by f_equal.
  - assert (Hstep : forall l, landing_ticks text (S n) l
                              = landing_tick text (landing_ticks text n l)).
    { clear. induction n as [|n IH]; intros l; [done|].
      cbn [landing_ticks] in *. by rewrite IH. }
    rewrite Hstep, IH. unfold landing_tick, typeLandingTitle_of.
    cbn [timer charIndex landingTitle].
    destruct (decide (S n <= String.length text)%nat) as [Hle|Hgt].
    + rewrite bool_decide_eq_true_2 by exact Hle. rewrite Nat.min_l by lia.
      destruct (S n <? String.length text)%nat eqn:Hlt.
      * apply Nat.ltb_lt in Hlt. rewrite Nat.min_l by lia.
        rewrite bool_decide_eq_true_2 by lia. f_equal.
        rewrite <- (substring_step text (S n) Hlt). apply append_assoc.
      * apply Nat.ltb_ge in Hlt. rewrite Nat.min_r by lia.
        rewrite bool_decide_eq_false_2 by lia.
        assert (S n = String.length text) as -> by lia. reflexivity.
    + rewrite bool_decide_eq_false_2 by exact Hgt. rewrite !Nat.min_r by lia.
      by rewrite bool_decide_eq_false_2 by lia.
Qed.

End Landing.

(** X24: the landing title is typed one character per timer period, after
    whatever the heading held, and the animation ends: after the call of
    [init] and [n] periods the heading shows the first [n + 1] characters of
    the title; from the seventeenth period on it shows the whole title, each
    character once; one period later the last pending call has found
    nothing to type, no timer is pending, and further periods change
    nothing. *)
Theorem typeLandingTitle_types_title (t0 : string) (n : nat) :
  let l := landing_ticks titleText n
             (typeLandingTitle {| charIndex := 0; landingTitle := t0; timer := false |}) in
  landingTitle l = t0 +:+ substring 0 (S n) titleText /\
  timer l = bool_decide (n < 18)%nat /\
  ((17 <= n)%nat -> landingTitle l = t0 +:+ "AI FAQ Bot Builder") /\
  ((18 <= n)%nat -> landing_tick titleText l = l).
Proof.
  cbn zeta. unfold typeLandingTitle. rewrite landing_ticks_state.
  change (String.length titleText) with 18%nat. cbn [landingTitle timer].
  split; [|split; [|split]].
  - destruct (decide (S n <= 18)%nat).
    + by rewrite Nat.min_l by lia.
    + rewrite Nat.min_r by lia.
      by rewrite !(substring_all titleText) by (change (String.length titleText) with 18%nat; lia).
  - apply bool_decide_ext. lia.
  - intros Hn. rewrite Nat.min_r by lia. reflexivity.
  - intros Hn. unfold landing_tick. cbn [timer].
    by rewrite bool_decide_eq_false_2 by lia.
Qed.

Lemma typeLandingTitle_types_title_witness :
  landingTitle (landing_ticks titleText 17
                  (typeLandingTitle {| charIndex := 0; landingTitle := EmptyString;
                                       timer := false |}))
  = "AI FAQ Bot Builder" /\
  landingTitle (landing_ticks titleText 40
                  (typeLandingTitle {| charIndex := 0; landingTitle := EmptyString;
                                       timer := false |}))
  = "AI FAQ Bot Builder".
Proof.
  split.
  - destruct (typeLandingTitle_types_title EmptyString 17) as (_ & _ & H & _).
    apply H. lia.
  - destruct (typeLandingTitle_types_title EmptyString 40) as (_ & _ & H & _).
    apply H. lia.
Defined.

Section ThemeChoice.

(** X25: the theme survives a reload of a page that is served light and
    unchecked: after the toggle has been set, on or off, [init] on the
    stored choice shows dark mode exactly when the toggle was on, and the
    toggle in the same position.  A store without a choice, or with any
    text other than [dark], leaves the page as served. *)
Theorem theme_survives_reload (checked : bool) (t served : Theme) :
  dark_mode served = false ->
  toggle_checked served = false ->
  ls_theme served = ls_theme (themeToggle_change checked t) ->
  dark_mode (init_theme served) = checked /\
  toggle_checked (init_theme served) = checked /\
  ls_theme (init_theme served) = ls_theme served.
Proof.
  intros Hd Hc Hl. unfold init_theme. rewrite Hl.
  destruct checked; cbn.
  - by rewrite decide_True.
  - by rewrite decide_False.
Qed.

Lemma theme_survives_reload_witness :
  let served := {| dark_mode := false; toggle_checked := false; ls_theme := Some "dark" |} in
  dark_mode (init_theme served) = true /\
  toggle_checked (init_theme served) = true /\
  ls_theme (init_theme served) = ls_theme served.
Proof.
  apply (theme_survives_reload true
           {| dark_mode := false; toggle_checked := false; ls_theme := None |}
           {| dark_mode := false; toggle_checked := false; ls_theme := Some "dark" |});
    reflexivity.
Defined.

End ThemeChoice.

Section StaleStore.

(** X26: a stored active id that is null or empty, or that names neither a
    stored session nor a property every object inherits, is not kept:
    [loadSessions()] creates a session, titled by the number of stored
    sessions plus one, and makes it active.  When the id made from the clock
    is not a stored key, every stored session is read back unchanged beside
    the new one.  (A stored id that names an inherited property, such as
    [constructor], is kept and nothing is created: see X6.) *)
Theorem loadSessions_stale_id (w : World) (m : gmap string Session) :
  ls_chatSessions w = SessionsJson m ->
  falsy_id (ls_currentSessionId w) = true \/
  (m !! propkey (ls_currentSessionId w) = None /\
   inherited (builtins w) (propkey (ls_currentSessionId w)) = None) ->
  m !! next_session_id w = None ->
  exists w',
    loadSessions w = (Normal tt, w') /\
    allSessions w'
    = <[ next_session_id w :=
           {| title := "Chat " +:+ pretty (size m + 1)%nat; messages := [greeting] |} ]> m /\
    currentSessionId w' = Some (next_session_id w) /\
    size (allSessions w') = S (size m) /\
    forall k s, m !! k = Some s -> allSessions w' !! k = Some s.
Proof.
  intros Hslot Hid Hfresh.
  rewrite (loadSessions_creates w m) by (by rewrite ?Hslot).
  set (w0 := set_currentSessionId _ _).
  destruct (createNewSession_result w0) as (w' & Hrun & Ha & Hc & _).
  exists w'. split; [exact Hrun|]. split; [exact Ha|]. split; [exact Hc|].
  rewrite Ha. split; [by apply map_size_insert_None|].
  intros k s Hk. rewrite lookup_insert_ne; [exact Hk|].
  intros <-. change (next_session_id w0) with (next_session_id w) in Hk. congruence.
Qed.

Lemma loadSessions_stale_id_witness :
  let w := reopened_later (snd (switchSession "session-404" started)) in
  ls_currentSessionId w = Some "session-404" /\
  exists w',
    loadSessions w = (Normal tt, w') /\
    currentSessionId w' = Some "session-5000" /\
    allSessions w' !! "session-1000" = Some {| title := "Chat 1"; messages := [greeting] |} /\
    allSessions w' !! "session-5000" = Some {| title := "Chat 2"; messages := [greeting] |}.
Proof.
  split; [vm_compute; reflexivity|].
  destruct (loadSessions_stale_id
              (reopened_later (snd (switchSession "session-404" started)))
              {[ "session-1000" := {| title := "Chat 1"; messages := [greeting] |} ]})
    as (w' & Hrun & Ha & Hc & _ & Hkeep).
  - change (SessionsJson (allSessions started)
            = SessionsJson {[ "session-1000" := {| title := "Chat 1"; messages := [greeting] |} ]}).
    by destruct started_sessions as [-> _].
  - right. split; vm_compute; reflexivity.
  - vm_compute. reflexivity.
  - exists w'. split; [exact Hrun|]. split; [exact Hc|]. split.
    + apply Hkeep. vm_compute. reflexivity.
    + rewrite Ha. vm_compute. reflexivity.
Defined.

(** X27: a click on an example prompt submits the text of the button
    whatever the text area held: the draft is discarded.  With an active
    session and a text that is not blank, the trimmed text of the button is
    pushed as a user message and sent as the query, and the text area is
    left empty. *)
Theorem examplePrompts_click_sends_prompt
    (textContent draft : string) (w : World) (s : Session) :
  allSessions w !! propkey (currentSessionId w) = Some s ->
  trim textContent <> EmptyString ->
  exists p w1,
    examplePrompts_click "BUTTON" textContent (set_userInput draft w)
    = (Normal (Some p), w1) /\
    userText p = trim textContent /\
    requests w1 = requests w ++ [trim textContent] /\
    allSessions w1 !! propkey (currentSessionId w)
    = Some (pushed s {| sender := user; text := JStr (trim textContent) |}) /\
    userInput w1 = EmptyString.
Proof.
  intros Hs Ht. unfold examplePrompts_click. rewrite decide_True by done. js_simpl.
  change (set_userInput textContent (set_userInput draft w))
    with (set_userInput textContent w).
  destruct (trim textContent) as [|c t] eqn:Htrim; [done|].
  destruct (handleChatSubmit_start_page (set_userInput textContent w) s c t Hs Htrim)
    as (p & w1 & Hrun & _ & Hu & Hi & _).
  destruct (handleChatSubmit_start_sends (set_userInput textContent w) s c t Hs Htrim)
    as (p' & w1' & Hrun' & _ & Ha & _ & Hr & _).
  rewrite Hrun in Hrun'. injection Hrun' as <- <-.
  exists p, w1. rewrite Hrun, Ha. cbn [currentSessionId set_userInput allSessions].
  rewrite lookup_insert_eq. by repeat split.
Qed.

Lemma examplePrompts_click_sends_prompt_witness :
  exists p w1,
    examplePrompts_click "BUTTON" "What is X?" (set_userInput "a draft" started)
    = (Normal (Some p), w1) /\
    userText p = "What is X?" /\
    requests w1 = ["What is X?"] /\
    userInput w1 = EmptyString.
Proof.
  destruct (examplePrompts_click_sends_prompt "What is X?" "a draft" started
              {| title := "Chat 1"; messages := [greeting] |})
    as (p & w1 & Hrun & Hu & Hr & _ & Hi).
  - vm_compute; reflexivity.
  - vm_compute; discriminate.
  - exists p, w1. split; [exact Hrun|]. split; [exact Hu|]. split; [exact Hr|exact Hi].
Defined.

End StaleStore.

Section Startup.

(** X28: a page opened on the store of a page [w] whose store was in step
    with its memory, whose active id is a non-empty key and whose active
    session holds string texts only, comes up as [w] was: [init()] returns,
    the sessions and the active id are those of [w], no session is created,
    and the history shows one bubble per message of the active session, in
    order. *)
Theorem init_restores (w w0 : World) (id : string) (s : Session) :
  synced w ->
  currentSessionId w = Some id ->
  id <> EmptyString ->
  allSessions w !! id = Some s ->
  first_unshown (messages s) = None ->
  ls_chatSessions w0 = ls_chatSessions w ->
  ls_currentSessionId w0 = ls_currentSessionId w ->
  exists w',
    init w0 = (Normal tt, w') /\
    allSessions w' = allSessions w /\
    currentSessionId w' = Some id /\
    chatHistory w' = rendered (date_now w0) (date_reads w0) (messages s) /\
    ls_chatSessions w' = ls_chatSessions w /\
    ls_currentSessionId w' = ls_currentSessionId w.
Proof.
  intros [Hs Hi] Hc Hid Hkey Hall Hs0 Hi0.
  rewrite Hc in Hi. cbn [propkey] in Hi.
  assert (Hload : loadSessions w0
                  = (Normal tt, set_currentSessionId (Some id)
                                  (set_allSessions (allSessions w) w0))).
  { rewrite (loadSessions_keeps w0 (allSessions w)).
    - by rewrite Hi0, Hi.
    - by rewrite Hs0, Hs.
    - rewrite Hi0, Hi. by destruct id.
    - rewrite Hi0, Hi. cbn. eauto. }
  unfold init, renderSessionList. js_simpl. rewrite Hload.
  rewrite (loadChatHistory_result _ s) by exact Hkey.
  unfold render_completion, render_reads. rewrite Hall, (first_unshown_none _ Hall).
  eexists. split; [reflexivity|]. cbn. by repeat split.
Qed.

Lemma init_restores_witness :
  exists w',
    init (reopened_later answered) = (Normal tt, w') /\
    allSessions w' = allSessions answered /\
    currentSessionId w' = Some "session-1000" /\
    chatHistory w'
    = [ {| div_id := "msg-5000"; div_sender := bot;
           div_bubble := Formatted "Hello! Ask me anything about the knowledge base." |};
        {| div_id := "msg-5001"; div_sender := user; div_bubble := Formatted "What is X?" |};
        {| div_id := "msg-5002"; div_sender := bot; div_bubble := Formatted "X is Y" |} ].
Proof.
  destruct (init_restores answered (reopened_later answered) "session-1000"
              {| title := "Chat 1";
                 messages := [greeting; {| sender := user; text := JStr "What is X?" |};
                              {| sender := bot; text := JStr "X is Y" |}] |})
    as (w' & Hrun & Ha & Hc & Hh & _).
  - split; vm_compute; reflexivity.
  - vm_compute; reflexivity.
  - discriminate.
  - vm_compute; reflexivity.
  - reflexivity.
  - reflexivity.
  - reflexivity.
  - exists w'. split; [exact Hrun|]. split; [exact Ha|]. split; [exact Hc|].
    rewrite Hh. vm_compute. reflexivity.
Defined.

End Startup.
